(** * Background job scheduler: domain entities and domain service

    A shallow embedding of the scheduling core of the repository
    ([domain/entities/job.py], [domain/entities/execution.py] and
    [domain/services/job_service.py]) together with the properties the
    specification states about it.

    Conventions of the embedding:
    - a naive UTC [datetime] is the number of microseconds since
      1970-01-01T00:00:00 (Python's resolution), as an unbounded [Z];
      [timedelta(seconds=n)] for an integer [n] adds [1000000 * n];
    - Python [int] is [Z]; Python [float] is an IEEE binary64 [float];
    - [Optional[T]] is [option T]; [list] is [list]; a [dict] is an
      association list in insertion order;
    - [datetime.utcnow()] is an explicit argument [now] of every operation
      that reads the clock; an operation that reads it more than once gets
      the same reading each time;
    - a method that mutates [self] is a function from the entity to the
      entity; a method that can raise runs in a state-and-exception monad in
      which the mutations made before the [raise] stay in the entity, as they
      do in Python;
    - [async]/[await] is sequential composition: the service awaits every
      repository call before it continues. *)

From Stdlib Require Import ZArith List String Ascii Bool Lia Floats.
From Stdlib Require Import Sorting.Sorted Sorting.Permutation.
Import ListNotations.

Local Open Scope string_scope.
Local Open Scope list_scope.
Local Open Scope Z_scope.

(** ** Time *)

Definition datetime : Type := Z.

Definition microseconds_per_second : Z := 1000000.

(** [base + timedelta(seconds=n)] for an integer [n]. *)
Definition add_seconds (base : datetime) (n : Z) : datetime :=
  base + microseconds_per_second * n.

(** A UUID is an opaque 128-bit number. *)
Definition UUID : Type := Z.

(** ** Exceptions

    Every [raise] of the modelled code is a [ValueError]; the constructors
    tell the raise sites apart (the message of each is in its comment). *)

Inductive exn : Type :=
| InvalidCronExpression (expr : string)
    (* job.py: "Invalid cron expression '<expr>': <e>" *)
| CroniterBadCronError (expr : string)
    (* croniter(expr, base): the constructor rejects the expression *)
| CroniterBadDateError (expr : string)
    (* croniter.get_next: no next date found *)
| JobNotFound (job_id : Z)
    (* job_service.py: "Job with ID <id> not found" *)
| JobNameExists (name : string)
    (* job_service.py: "Job with name '<name>' already exists" *)
| TimeoutNotPositive
    (* job_service.py: "Timeout must be positive" *)
| MaxRetriesNegative
    (* job_service.py: "Max retries cannot be negative" *)
| RetryDelayNegative
    (* job_service.py: "Retry delay cannot be negative" *)
| RepositoryError (msg : string).

(** ** State and exception monad

    [M S A] is a computation over a mutable object of type [S] that returns
    an [A] or raises.  The object is threaded through a raise, so what was
    assigned before the exception is still assigned after it. *)

Definition M (S A : Type) : Type := S -> (exn + A) * S.

Definition ret {S A} (a : A) : M S A := fun s => (inr a, s).

Definition raise {S A} (e : exn) : M S A := fun s => (inl e, s).

Definition bind {S A B} (m : M S A) (k : A -> M S B) : M S B :=
  fun s =>
    match m s with
    | (inl e, s') => (inl e, s')
    | (inr a, s') => k a s'
    end.

Definition get {S} : M S S := fun s => (inr s, s).

Definition modify {S} (f : S -> S) : M S unit := fun s => (inr tt, f s).

Declare Scope monad_scope.
Delimit Scope monad_scope with monad.
Notation "x <- m ;; k" := (bind m (fun x => k))
  (at level 61, m at next level, right associativity) : monad_scope.
Notation "m ;;; k" := (bind m (fun _ => k))
  (at level 61, right associativity) : monad_scope.

(** Python's [if c: body] where [body] may raise. *)
Definition when {S} (c : bool) (body : M S unit) : M S unit :=
  if c then body else ret tt.

(** The object after the computation, and its outcome. *)
Definition exec {S A} (m : M S A) (s : S) : S := snd (m s).
Definition eval {S A} (m : M S A) (s : S) : exn + A := fst (m s).

(** ** The croniter package

    [croniter(expr)] and [croniter(expr, base).get_next(datetime)] come from
    the third-party [croniter] package.  The entities use it through this
    interface: [croniter_accepts expr] tells whether the constructor returns
    (it raises a [ValueError] otherwise), and [croniter_get_next expr base]
    is the value of [get_next], or [None] when [get_next] raises. *)

Class Croniter : Type := {
  croniter_accepts : string -> bool;
  croniter_get_next : string -> datetime -> option datetime
}.

(** ** Job entity (domain/entities/job.py) *)

Inductive JobStatus : Type := ACTIVE | INACTIVE | PAUSED | DELETED.

Definition JobStatus_eqb (a b : JobStatus) : bool :=
  match a, b with
  | ACTIVE, ACTIVE | INACTIVE, INACTIVE | PAUSED, PAUSED | DELETED, DELETED => true
  | _, _ => false
  end.

(** [x in xs] on a list of strings. *)
Definition str_in (x : string) (xs : list string) : bool :=
  existsb (String.eqb x) xs.

(** [xs.remove(x)]: drops the first occurrence; the callers check [x in xs]
    first, so the [ValueError] of a missing element is never raised. *)
Fixpoint list_remove (x : string) (xs : list string) : list string :=
  match xs with
  | [] => []
  | y :: ys => if String.eqb x y then ys else y :: list_remove x ys
  end.

(** A [dict] with string keys, in insertion order: [d.get(key)],
    [d[key] = value] (an existing key keeps its place), [del d[key]] and
    [key in d]. *)
Fixpoint dict_get {V : Type} (key : string) (d : list (string * V))
  : option V :=
  match d with
  | [] => None
  | (k, v) :: rest => if String.eqb key k then Some v else dict_get key rest
  end.

Fixpoint dict_set {V : Type} (key : string) (value : V)
    (d : list (string * V)) : list (string * V) :=
  match d with
  | [] => [(key, value)]
  | (k, v) :: rest =>
      if String.eqb key k then (k, value) :: rest
      else (k, v) :: dict_set key value rest
  end.

Definition dict_del {V : Type} (key : string) (d : list (string * V))
  : list (string * V) :=
  filter (fun entry => negb (String.eqb key (fst entry))) d.

Definition dict_mem {V : Type} (key : string) (d : list (string * V)) : bool :=
  existsb (fun entry => String.eqb key (fst entry)) d.

Module Job.

Record t : Type := mk {
  name : string;
  cron_expression : string;
  command : string;
  description : string;
  status : JobStatus;
  created_at : datetime;
  updated_at : datetime;
  last_run : option datetime;
  next_run : option datetime;
  timeout_seconds : Z;
  max_retries : Z;
  retry_delay_seconds : Z;
  environment_variables : list (string * string);
  tags : list string;
  id : option Z;
  uuid : UUID
}.

Definition set_name (v : string) (j : t) : t :=
  {| name := v; cron_expression := j.(cron_expression);
     command := j.(command); description := j.(description);
     status := j.(status); created_at := j.(created_at);
     updated_at := j.(updated_at); last_run := j.(last_run);
     next_run := j.(next_run); timeout_seconds := j.(timeout_seconds);
     max_retries := j.(max_retries);
     retry_delay_seconds := j.(retry_delay_seconds);
     environment_variables := j.(environment_variables); tags := j.(tags);
     id := j.(id); uuid := j.(uuid) |}.

Definition set_cron_expression (v : string) (j : t) : t :=
  {| name := j.(name); cron_expression := v; command := j.(command);
     description := j.(description); status := j.(status);
     created_at := j.(created_at); updated_at := j.(updated_at);
     last_run := j.(last_run); next_run := j.(next_run);
     timeout_seconds := j.(timeout_seconds); max_retries := j.(max_retries);
     retry_delay_seconds := j.(retry_delay_seconds);
     environment_variables := j.(environment_variables); tags := j.(tags);
     id := j.(id); uuid := j.(uuid) |}.

Definition set_command (v : string) (j : t) : t :=
  {| name := j.(name); cron_expression := j.(cron_expression); command := v;
     description := j.(description); status := j.(status);
     created_at := j.(created_at); updated_at := j.(updated_at);
     last_run := j.(last_run); next_run := j.(next_run);
     timeout_seconds := j.(timeout_seconds); max_retries := j.(max_retries);
     retry_delay_seconds := j.(retry_delay_seconds);
     environment_variables := j.(environment_variables); tags := j.(tags);
     id := j.(id); uuid := j.(uuid) |}.

Definition set_description (v : string) (j : t) : t :=
  {| name := j.(name); cron_expression := j.(cron_expression);
     command := j.(command); description := v; status := j.(status);
     created_at := j.(created_at); updated_at := j.(updated_at);
     last_run := j.(last_run); next_run := j.(next_run);
     timeout_seconds := j.(timeout_seconds); max_retries := j.(max_retries);
     retry_delay_seconds := j.(retry_delay_seconds);
     environment_variables := j.(environment_variables); tags := j.(tags);
     id := j.(id); uuid := j.(uuid) |}.

Definition set_status (v : JobStatus) (j : t) : t :=
  {| name := j.(name); cron_expression := j.(cron_expression);
     command := j.(command); description := j.(description); status := v;
     created_at := j.(created_at); updated_at := j.(updated_at);
     last_run := j.(last_run); next_run := j.(next_run);
     timeout_seconds := j.(timeout_seconds); max_retries := j.(max_retries);
     retry_delay_seconds := j.(retry_delay_seconds);
     environment_variables := j.(environment_variables); tags := j.(tags);
     id := j.(id); uuid := j.(uuid) |}.

Definition set_updated_at (v : datetime) (j : t) : t :=
  {| name := j.(name); cron_expression := j.(cron_expression);
     command := j.(command); description := j.(description);
     status := j.(status); created_at := j.(created_at); updated_at := v;
     last_run := j.(last_run); next_run := j.(next_run);
     timeout_seconds := j.(timeout_seconds); max_retries := j.(max_retries);
     retry_delay_seconds := j.(retry_delay_seconds);
     environment_variables := j.(environment_variables); tags := j.(tags);
     id := j.(id); uuid := j.(uuid) |}.

Definition set_last_run (v : option datetime) (j : t) : t :=
  {| name := j.(name); cron_expression := j.(cron_expression);
     command := j.(command); description := j.(description);
     status := j.(status); created_at := j.(created_at);
     updated_at := j.(updated_at); last_run := v; next_run := j.(next_run);
     timeout_seconds := j.(timeout_seconds); max_retries := j.(max_retries);
     retry_delay_seconds := j.(retry_delay_seconds);
     environment_variables := j.(environment_variables); tags := j.(tags);
     id := j.(id); uuid := j.(uuid) |}.

Definition set_next_run (v : option datetime) (j : t) : t :=
  {| name := j.(name); cron_expression := j.(cron_expression);
     command := j.(command); description := j.(description);
     status := j.(status); created_at := j.(created_at);
     updated_at := j.(updated_at); last_run := j.(last_run); next_run := v;
     timeout_seconds := j.(timeout_seconds); max_retries := j.(max_retries);
     retry_delay_seconds := j.(retry_delay_seconds);
     environment_variables := j.(environment_variables); tags := j.(tags);
     id := j.(id); uuid := j.(uuid) |}.

Definition set_timeout_seconds (v : Z) (j : t) : t :=
  {| name := j.(name); cron_expression := j.(cron_expression);
     command := j.(command); description := j.(description);
     status := j.(status); created_at := j.(created_at);
     updated_at := j.(updated_at); last_run := j.(last_run);
     next_run := j.(next_run); timeout_seconds := v;
     max_retries := j.(max_retries);
     retry_delay_seconds := j.(retry_delay_seconds);
     environment_variables := j.(environment_variables); tags := j.(tags);
     id := j.(id); uuid := j.(uuid) |}.

Definition set_max_retries (v : Z) (j : t) : t :=
  {| name := j.(name); cron_expression := j.(cron_expression);
     command := j.(command); description := j.(description);
     status := j.(status); created_at := j.(created_at);
     updated_at := j.(updated_at); last_run := j.(last_run);
     next_run := j.(next_run); timeout_seconds := j.(timeout_seconds);
     max_retries := v; retry_delay_seconds := j.(retry_delay_seconds);
     environment_variables := j.(environment_variables); tags := j.(tags);
     id := j.(id); uuid := j.(uuid) |}.

Definition set_retry_delay_seconds (v : Z) (j : t) : t :=
  {| name := j.(name); cron_expression := j.(cron_expression);
     command := j.(command); description := j.(description);
     status := j.(status); created_at := j.(created_at);
     updated_at := j.(updated_at); last_run := j.(last_run);
     next_run := j.(next_run); timeout_seconds := j.(timeout_seconds);
     max_retries := j.(max_retries); retry_delay_seconds := v;
     environment_variables := j.(environment_variables); tags := j.(tags);
     id := j.(id); uuid := j.(uuid) |}.

Definition set_environment_variables (v : list (string * string)) (j : t) : t :=
  {| name := j.(name); cron_expression := j.(cron_expression);
     command := j.(command); description := j.(description);
     status := j.(status); created_at := j.(created_at);
     updated_at := j.(updated_at); last_run := j.(last_run);
     next_run := j.(next_run); timeout_seconds := j.(timeout_seconds);
     max_retries := j.(max_retries);
     retry_delay_seconds := j.(retry_delay_seconds);
     environment_variables := v; tags := j.(tags); id := j.(id);
     uuid := j.(uuid) |}.

Definition set_tags (v : list string) (j : t) : t :=
  {| name := j.(name); cron_expression := j.(cron_expression);
     command := j.(command); description := j.(description);
     status := j.(status); created_at := j.(created_at);
     updated_at := j.(updated_at); last_run := j.(last_run);
     next_run := j.(next_run); timeout_seconds := j.(timeout_seconds);
     max_retries := j.(max_retries);
     retry_delay_seconds := j.(retry_delay_seconds);
     environment_variables := j.(environment_variables); tags := v;
     id := j.(id); uuid := j.(uuid) |}.

Section Methods.
Context {cron : Croniter}.
Local Open Scope monad_scope.

(** [validate_cron_expression]: [croniter(self.cron_expression)] inside a
    [try]; a [ValueError] or [TypeError] is raised again as [ValueError]. *)
Definition validate_cron_expression : M t unit :=
  self <- get ;;
  if croniter_accepts self.(cron_expression) then ret tt
  else raise (InvalidCronExpression self.(cron_expression)).

(** [calculate_next_run(base_time)]; a [None] base time is [utcnow()],
    which the caller passes. *)
Definition calculate_next_run (base_time : datetime) : M t datetime :=
  self <- get ;;
  if croniter_accepts self.(cron_expression) then
    match croniter_get_next self.(cron_expression) base_time with
    | Some next =>
        modify (set_next_run (Some next)) ;;;
        ret next
    | None => raise (CroniterBadDateError self.(cron_expression))
    end
  else raise (CroniterBadCronError self.(cron_expression)).

(** [__post_init__], run on the freshly built dataclass. *)
Definition post_init (now : datetime) : M t unit :=
  validate_cron_expression ;;;
  self <- get ;;
  match self.(next_run) with
  | None => _ <- calculate_next_run now ;; ret tt
  | Some _ => ret tt
  end.

Definition is_due (current_time : datetime) (self : t) : bool :=
  JobStatus_eqb self.(status) ACTIVE
  && match self.(next_run) with
     | Some next => next <=? current_time
     | None => false
     end.

Definition mark_as_executed (execution_time : datetime) : M t unit :=
  modify (set_last_run (Some execution_time)) ;;;
  modify (set_updated_at execution_time) ;;;
  _ <- calculate_next_run execution_time ;;
  ret tt.

Definition pause (now : datetime) (self : t) : t :=
  if JobStatus_eqb self.(status) ACTIVE
  then set_updated_at now (set_status PAUSED self)
  else self.

Definition resume (now : datetime) : M t unit :=
  self <- get ;;
  when (JobStatus_eqb self.(status) PAUSED)
    (modify (set_status ACTIVE) ;;;
     modify (set_updated_at now) ;;;
     _ <- calculate_next_run now ;;
     ret tt).

Definition deactivate (now : datetime) (self : t) : t :=
  set_next_run None (set_updated_at now (set_status INACTIVE self)).

Definition activate (now : datetime) : M t unit :=
  self <- get ;;
  when (JobStatus_eqb self.(status) INACTIVE
        || JobStatus_eqb self.(status) PAUSED)
    (modify (set_status ACTIVE) ;;;
     modify (set_updated_at now) ;;;
     _ <- calculate_next_run now ;;
     ret tt).

Definition soft_delete (now : datetime) (self : t) : t :=
  set_next_run None (set_updated_at now (set_status DELETED self)).

Definition add_tag (now : datetime) (tag : string) (self : t) : t :=
  if negb (str_in tag self.(tags))
  then set_updated_at now (set_tags (self.(tags) ++ [tag]) self)
  else self.

Definition remove_tag (now : datetime) (tag : string) (self : t) : t :=
  if str_in tag self.(tags)
  then set_updated_at now (set_tags (list_remove tag self.(tags)) self)
  else self.

Definition set_environment_variable (now : datetime) (key value : string)
    (self : t) : t :=
  set_updated_at now
    (set_environment_variables
       (dict_set key value self.(environment_variables)) self).

Definition remove_environment_variable (now : datetime) (key : string)
    (self : t) : t :=
  if dict_mem key self.(environment_variables)
  then set_updated_at now
         (set_environment_variables
            (dict_del key self.(environment_variables)) self)
  else self.

(** [Job(...)]: the generated [__init__] stores the given fields, then
    [__post_init__] runs on the new object; the call returns the object or
    raises what [__post_init__] raises. *)
Definition init (now : datetime) (fields : t) : exn + t :=
  match post_init now fields with
  | (inl e, _) => inl e
  | (inr _, self) => inr self
  end.

(** The lifecycle operations with their arguments.  [apply] is the entity
    after the call, whether the call returned or raised. *)
Inductive operation : Type :=
| Activate (now : datetime)
| Pause (now : datetime)
| Resume (now : datetime)
| Deactivate (now : datetime)
| SoftDelete (now : datetime)
| MarkAsExecuted (execution_time : datetime).

Definition apply (op : operation) (self : t) : t :=
  match op with
  | Activate now => exec (activate now) self
  | Pause now => pause now self
  | Resume now => exec (resume now) self
  | Deactivate now => deactivate now self
  | SoftDelete now => soft_delete now self
  | MarkAsExecuted execution_time => exec (mark_as_executed execution_time) self
  end.

Definition is_deactivate (op : operation) : bool :=
  match op with
  | Deactivate _ => true
  | _ => false
  end.

(** The tag operations, for sequences of them. *)
Inductive tag_operation : Type :=
| AddTag (now : datetime) (tag : string)
| RemoveTag (now : datetime) (tag : string).

Definition apply_tag (op : tag_operation) (self : t) : t :=
  match op with
  | AddTag now tag => add_tag now tag self
  | RemoveTag now tag => remove_tag now tag self
  end.

End Methods.

End Job.

(** ** JobExecution entity (domain/entities/execution.py) *)

Inductive ExecutionStatus : Type :=
| PENDING | RUNNING | SUCCESS | FAILED | TIMEOUT | CANCELLED | RETRYING.

Definition ExecutionStatus_eqb (a b : ExecutionStatus) : bool :=
  match a, b with
  | PENDING, PENDING | RUNNING, RUNNING | SUCCESS, SUCCESS | FAILED, FAILED
  | TIMEOUT, TIMEOUT | CANCELLED, CANCELLED | RETRYING, RETRYING => true
  | _, _ => false
  end.

(** ** Python numbers

    [a / b] on two [int]s is the correctly rounded binary64 quotient;
    [round(x, 2)] on a [float] is the binary64 nearest to the decimal that
    is nearest to [x] with two fractional digits, ties to even at both
    steps (CPython's [float.__round__], which goes through the correctly
    rounded decimal conversion in both directions). *)

(** An integer as an exact (not normalised) binary floating-point datum. *)
Definition Z2SF (z : Z) : spec_float :=
  match z with
  | Z0 => S754_zero false
  | Zpos p => S754_finite false p 0
  | Zneg p => S754_finite true p 0
  end.

(** [float(z)]: the binary64 nearest to the integer [z]. *)
Definition float_of_Z (z : Z) : float :=
  SF2Prim (binary_normalize prec emax z 0 false).

(** [a / b] for [int]s with [b <> 0]. *)
Definition int_truediv (a b : Z) : float :=
  SF2Prim (SFdiv prec emax (Z2SF a) (Z2SF b)).

(** The integer nearest to [n / d] for [d > 0], ties to even. *)
Definition div_round_half_even (n d : Z) : Z :=
  let q := n / d in
  let r := n mod d in
  if 2 * r <? d then q
  else if d <? 2 * r then q + 1
  else if Z.even q then q else q + 1.

(** [round(x, 2)] for a [float] [x]. *)
Definition round2 (x : float) : float :=
  match Prim2SF x with
  | S754_finite s m e =>
      if 0 <=? e then x
      else
        let k := div_round_half_even (100 * Z.pos m) (2 ^ (- e)) in
        let r := int_truediv k 100 in
        if s then PrimFloat.opp r else r
  | _ => x
  end.

(** [sum(xs)] for a list of [float]s: the integer start value [0], then one
    rounded addition per element, left to right (newer interpreters carry a
    correction term along, which can change the last bit of a long sum). *)
Definition float_sum (xs : list float) : float :=
  fold_left PrimFloat.add xs 0%float.

Module JobExecution.

Record t : Type := mk {
  job_id : option Z;
  job_uuid : UUID;
  status : ExecutionStatus;
  scheduled_time : datetime;
  started_at : option datetime;
  finished_at : option datetime;
  exit_code : option Z;
  stdout : string;
  stderr : string;
  error_message : string;
  retry_count : Z;
  environment_variables : list (string * string);
  execution_metadata : list (string * string);  (* values are any object *)
  id : option Z;
  uuid : UUID
}.

Definition set_status (v : ExecutionStatus) (j : t) : t :=
  {| job_id := j.(job_id); job_uuid := j.(job_uuid); status := v;
     scheduled_time := j.(scheduled_time); started_at := j.(started_at);
     finished_at := j.(finished_at); exit_code := j.(exit_code);
     stdout := j.(stdout); stderr := j.(stderr);
     error_message := j.(error_message); retry_count := j.(retry_count);
     environment_variables := j.(environment_variables);
     execution_metadata := j.(execution_metadata); id := j.(id);
     uuid := j.(uuid) |}.

Definition set_started_at (v : option datetime) (j : t) : t :=
  {| job_id := j.(job_id); job_uuid := j.(job_uuid); status := j.(status);
     scheduled_time := j.(scheduled_time); started_at := v;
     finished_at := j.(finished_at); exit_code := j.(exit_code);
     stdout := j.(stdout); stderr := j.(stderr);
     error_message := j.(error_message); retry_count := j.(retry_count);
     environment_variables := j.(environment_variables);
     execution_metadata := j.(execution_metadata); id := j.(id);
     uuid := j.(uuid) |}.

Definition set_finished_at (v : option datetime) (j : t) : t :=
  {| job_id := j.(job_id); job_uuid := j.(job_uuid); status := j.(status);
     scheduled_time := j.(scheduled_time); started_at := j.(started_at);
     finished_at := v; exit_code := j.(exit_code); stdout := j.(stdout);
     stderr := j.(stderr); error_message := j.(error_message);
     retry_count := j.(retry_count);
     environment_variables := j.(environment_variables);
     execution_metadata := j.(execution_metadata); id := j.(id);
     uuid := j.(uuid) |}.

Definition set_exit_code (v : option Z) (j : t) : t :=
  {| job_id := j.(job_id); job_uuid := j.(job_uuid); status := j.(status);
     scheduled_time := j.(scheduled_time); started_at := j.(started_at);
     finished_at := j.(finished_at); exit_code := v; stdout := j.(stdout);
     stderr := j.(stderr); error_message := j.(error_message);
     retry_count := j.(retry_count);
     environment_variables := j.(environment_variables);
     execution_metadata := j.(execution_metadata); id := j.(id);
     uuid := j.(uuid) |}.

Definition set_stdout (v : string) (j : t) : t :=
  {| job_id := j.(job_id); job_uuid := j.(job_uuid); status := j.(status);
     scheduled_time := j.(scheduled_time); started_at := j.(started_at);
     finished_at := j.(finished_at); exit_code := j.(exit_code);
     stdout := v; stderr := j.(stderr); error_message := j.(error_message);
     retry_count := j.(retry_count);
     environment_variables := j.(environment_variables);
     execution_metadata := j.(execution_metadata); id := j.(id);
     uuid := j.(uuid) |}.

Definition set_stderr (v : string) (j : t) : t :=
  {| job_id := j.(job_id); job_uuid := j.(job_uuid); status := j.(status);
     scheduled_time := j.(scheduled_time); started_at := j.(started_at);
     finished_at := j.(finished_at); exit_code := j.(exit_code);
     stdout := j.(stdout); stderr := v; error_message := j.(error_message);
     retry_count := j.(retry_count);
     environment_variables := j.(environment_variables);
     execution_metadata := j.(execution_metadata); id := j.(id);
     uuid := j.(uuid) |}.

Definition set_error_message (v : string) (j : t) : t :=
  {| job_id := j.(job_id); job_uuid := j.(job_uuid); status := j.(status);
     scheduled_time := j.(scheduled_time); started_at := j.(started_at);
     finished_at := j.(finished_at); exit_code := j.(exit_code);
     stdout := j.(stdout); stderr := j.(stderr); error_message := v;
     retry_count := j.(retry_count);
     environment_variables := j.(environment_variables);
     execution_metadata := j.(execution_metadata); id := j.(id);
     uuid := j.(uuid) |}.

Definition set_retry_count (v : Z) (j : t) : t :=
  {| job_id := j.(job_id); job_uuid := j.(job_uuid); status := j.(status);
     scheduled_time := j.(scheduled_time); started_at := j.(started_at);
     finished_at := j.(finished_at); exit_code := j.(exit_code);
     stdout := j.(stdout); stderr := j.(stderr);
     error_message := j.(error_message); retry_count := v;
     environment_variables := j.(environment_variables);
     execution_metadata := j.(execution_metadata); id := j.(id);
     uuid := j.(uuid) |}.

Definition set_execution_metadata (v : list (string * string)) (j : t) : t :=
  {| job_id := j.(job_id); job_uuid := j.(job_uuid); status := j.(status);
     scheduled_time := j.(scheduled_time); started_at := j.(started_at);
     finished_at := j.(finished_at); exit_code := j.(exit_code);
     stdout := j.(stdout); stderr := j.(stderr);
     error_message := j.(error_message); retry_count := j.(retry_count);
     environment_variables := j.(environment_variables);
     execution_metadata := v; id := j.(id); uuid := j.(uuid) |}.

(** [duration_seconds]: [(finished_at - started_at).total_seconds()], the
    difference in microseconds divided by [10**6]. *)
Definition duration_seconds (self : t) : option float :=
  match self.(started_at), self.(finished_at) with
  | Some started, Some finished =>
      Some (int_truediv (finished - started) microseconds_per_second)
  | _, _ => None
  end.

Definition is_completed (self : t) : bool :=
  match self.(status) with
  | SUCCESS | FAILED | TIMEOUT | CANCELLED => true
  | _ => false
  end.

Definition is_successful (self : t) : bool :=
  ExecutionStatus_eqb self.(status) SUCCESS.

Definition can_retry (self : t) : bool :=
  match self.(status) with
  | FAILED | TIMEOUT => true
  | _ => false
  end.

Definition start (start_time : datetime) (self : t) : t :=
  set_started_at (Some start_time) (set_status RUNNING self).

Definition complete_success (exit_code : Z) (stdout : string)
    (finish_time : datetime) (self : t) : t :=
  set_stdout stdout
    (set_exit_code (Some exit_code)
       (set_finished_at (Some finish_time) (set_status SUCCESS self))).

Definition complete_failure (exit_code : option Z) (stderr : string)
    (error_message : string) (finish_time : datetime) (self : t) : t :=
  set_error_message error_message
    (set_stderr stderr
       (set_exit_code exit_code
          (set_finished_at (Some finish_time) (set_status FAILED self)))).

Definition timeout (error_message : string) (finish_time : datetime)
    (self : t) : t :=
  set_error_message error_message
    (set_finished_at (Some finish_time) (set_status TIMEOUT self)).

Definition cancel (error_message : string) (finish_time : datetime)
    (self : t) : t :=
  set_error_message error_message
    (set_finished_at (Some finish_time) (set_status CANCELLED self)).

Definition prepare_retry (self : t) : t :=
  if can_retry self then
    set_exit_code None
      (set_finished_at None
         (set_started_at None
            (set_retry_count (self.(retry_count) + 1)
               (set_status RETRYING self))))
  else self.

Definition set_metadata (key value : string) (self : t) : t :=
  set_execution_metadata (dict_set key value self.(execution_metadata)) self.

(** [get_metadata(key, default)]: [dict.get] with a default. *)
Definition get_metadata (key default : string) (self : t) : string :=
  match dict_get key self.(execution_metadata) with
  | Some value => value
  | None => default
  end.

(** The six status-changing operations with their arguments, so that a
    property can range over all of them. *)
Inductive operation : Type :=
| Start (start_time : datetime)
| CompleteSuccess (exit_code : Z) (stdout : string) (finish_time : datetime)
| CompleteFailure (exit_code : option Z) (stderr error_message : string)
    (finish_time : datetime)
| Timeout (error_message : string) (finish_time : datetime)
| Cancel (error_message : string) (finish_time : datetime)
| PrepareRetry.

Definition apply (op : operation) (self : t) : t :=
  match op with
  | Start at_ => start at_ self
  | CompleteSuccess code out at_ => complete_success code out at_ self
  | CompleteFailure code err msg at_ => complete_failure code err msg at_ self
  | Timeout msg at_ => timeout msg at_ self
  | Cancel msg at_ => cancel msg at_ self
  | PrepareRetry => prepare_retry self
  end.

End JobExecution.

(** ** Repository interfaces (domain/interfaces/job_repository.py)

    The abstract collaborators of the service.  Every method may raise a
    repository error, so each returns [exn + _].  Only the methods the
    modelled operations call are listed. *)

Class JobRepositoryInterface : Type := {
  get_by_id : Z -> exn + option Job.t;
  get_by_name : string -> exn + option Job.t;
  get_due_jobs : datetime -> exn + list Job.t;
  update : Job.t -> exn + Job.t
}.

(** [create] of the job repository, in a class of its own: it stores the
    job and returns it (with its id) or raises. *)
Class JobRepositoryCreate : Type := {
  create : Job.t -> exn + Job.t
}.

Class JobExecutionRepositoryInterface : Type := {
  get_by_job_id : Z -> exn + list JobExecution.t
}.

(** ** Job domain service (domain/services/job_service.py) *)

(** [sum(xs)] for a list of [int]s. *)
Definition int_sum (xs : list Z) : Z := fold_left Z.add xs 0.

(** The dictionary [get_job_statistics] returns, one field per key.  The
    two rounded values are [float]s (the integer [0] of the empty case is
    the float [0]); the two timestamps stand for their ISO strings. *)
Record JobStatistics : Type := {
  job_name : string;
  job_status : JobStatus;
  total_executions : Z;
  successful_executions : Z;
  failed_executions : Z;
  success_rate_percent : float;
  average_duration_seconds : float;
  last_execution : option datetime;
  next_execution : option datetime
}.

Module JobDomainService.

Section Service.
Context {cron : Croniter}.
Context {job_repository : JobRepositoryInterface}.
Context {execution_repository : JobExecutionRepositoryInterface}.
Local Open Scope monad_scope.

(** An awaited repository call inside a computation on an entity. *)
Definition await {S A} (r : exn + A) : M S A :=
  match r with
  | inl e => raise e
  | inr a => ret a
  end.

(** The body of [update_job] after the job was fetched: the statements of
    the source in their order, run on the fetched entity. *)
Definition update_fields (now : datetime)
    (name cron_expression command description : option string)
    (timeout_seconds max_retries retry_delay_seconds : option Z)
  : M Job.t unit :=
  job <- get ;;
  match name with
  | Some name =>
      when (negb (String.eqb name job.(Job.name)))
        (existing_job <- await (get_by_name name) ;;
         match existing_job with
         | Some _ => raise (JobNameExists name)
         | None => modify (Job.set_name name)
         end)
  | None => ret tt
  end ;;;
  match cron_expression with
  | Some cron_expression =>
      modify (Job.set_cron_expression cron_expression) ;;;
      Job.validate_cron_expression ;;;
      _ <- Job.calculate_next_run now ;;
      ret tt
  | None => ret tt
  end ;;;
  match command with
  | Some command => modify (Job.set_command command)
  | None => ret tt
  end ;;;
  match description with
  | Some description => modify (Job.set_description description)
  | None => ret tt
  end ;;;
  match timeout_seconds with
  | Some timeout_seconds =>
      if timeout_seconds <=? 0 then raise TimeoutNotPositive
      else modify (Job.set_timeout_seconds timeout_seconds)
  | None => ret tt
  end ;;;
  match max_retries with
  | Some max_retries =>
      if max_retries <? 0 then raise MaxRetriesNegative
      else modify (Job.set_max_retries max_retries)
  | None => ret tt
  end ;;;
  match retry_delay_seconds with
  | Some retry_delay_seconds =>
      if retry_delay_seconds <? 0 then raise RetryDelayNegative
      else modify (Job.set_retry_delay_seconds retry_delay_seconds)
  | None => ret tt
  end ;;;
  modify (Job.set_updated_at now).

(** [update_job].  The first component is what the call returns or raises;
    the second is the entity [get_by_id] handed out, as the call leaves it
    ([None] when no entity was fetched). *)
Definition update_job (now : datetime) (job_id : Z)
    (name cron_expression command description : option string)
    (timeout_seconds max_retries retry_delay_seconds : option Z)
  : (exn + Job.t) * option Job.t :=
  match get_by_id job_id with
  | inl e => (inl e, None)
  | inr None => (inl (JobNotFound job_id), None)
  | inr (Some job) =>
      match update_fields now name cron_expression command description
              timeout_seconds max_retries retry_delay_seconds job with
      | (inl e, job') => (inl e, Some job')
      | (inr _, job') => (update job', Some job')
      end
  end.

Definition _is_job_eligible_for_execution (job : Job.t)
    (current_time : datetime) : bool :=
  if negb (JobStatus_eqb job.(Job.status) ACTIVE) then false
  else if negb (Job.is_due current_time job) then false
  else true.

(** [get_jobs_due_for_execution]: the loop appends each eligible candidate
    to [eligible_jobs], in the order the repository returned them. *)
Definition get_jobs_due_for_execution (current_time : datetime)
  : exn + list Job.t :=
  match get_due_jobs current_time with
  | inl e => inl e
  | inr due_jobs =>
      inr (fold_left
             (fun eligible_jobs job =>
                if _is_job_eligible_for_execution job current_time
                then eligible_jobs ++ [job]
                else eligible_jobs)
             due_jobs [])
  end.

Definition should_retry_execution (execution : JobExecution.t)
    (job : Job.t) : bool :=
  if job.(Job.max_retries) <=? execution.(JobExecution.retry_count) then false
  else if negb (JobExecution.can_retry execution) then false
  else if negb (JobStatus_eqb job.(Job.status) ACTIVE) then false
  else true.

(** The delay of [calculate_retry_time], in seconds.  [2 ** retry_count] is
    an integer power for the non-negative counts an execution has. *)
Definition retry_delay (execution : JobExecution.t) (job : Job.t) : Z :=
  let retry_delay :=
    job.(Job.retry_delay_seconds) * 2 ^ execution.(JobExecution.retry_count) in
  let max_delay := 3600 in
  Z.min retry_delay max_delay.

Definition calculate_retry_time (execution : JobExecution.t) (job : Job.t)
    (base_time : datetime) : datetime :=
  add_seconds base_time (retry_delay execution job).

(** The comprehension [[e.duration_seconds for e in executions if
    e.is_successful and e.duration_seconds is not None]]. *)
Definition successful_durations (executions : list JobExecution.t)
  : list float :=
  flat_map
    (fun e =>
       if JobExecution.is_successful e then
         match JobExecution.duration_seconds e with
         | Some d => [d]
         | None => []
         end
       else [])
    executions.

Definition get_job_statistics (job_id : Z) : exn + JobStatistics :=
  match get_by_id job_id with
  | inl e => inl e
  | inr None => inl (JobNotFound job_id)
  | inr (Some job) =>
      match get_by_job_id job_id with
      | inl e => inl e
      | inr executions =>
          let total_executions := Z.of_nat (List.length executions) in
          let successful_executions :=
            int_sum (map (fun _ => 1)
                       (filter (fun e => ExecutionStatus_eqb
                                           e.(JobExecution.status) SUCCESS)
                               executions)) in
          let failed_executions :=
            int_sum (map (fun _ => 1)
                       (filter (fun e => ExecutionStatus_eqb
                                           e.(JobExecution.status) FAILED)
                               executions)) in
          let success_rate :=
            if 0 <? total_executions
            then PrimFloat.mul
                   (int_truediv successful_executions total_executions) 100
            else 0%float in
          let successful_durations := successful_durations executions in
          let avg_duration :=
            match successful_durations with
            | [] => 0%float
            | _ :: _ =>
                PrimFloat.div (float_sum successful_durations)
                  (float_of_Z (Z.of_nat (List.length successful_durations)))
            end in
          inr {| job_name := job.(Job.name);
                 job_status := job.(Job.status);
                 total_executions := total_executions;
                 successful_executions := successful_executions;
                 failed_executions := failed_executions;
                 success_rate_percent := round2 success_rate;
                 average_duration_seconds := round2 avg_duration;
                 last_execution := job.(Job.last_run);
                 next_execution := job.(Job.next_run) |}
      end
  end.

End Service.

Section Creation.
Context {cron : Croniter}.
Context {job_repository : JobRepositoryInterface}.
Context {job_creation : JobRepositoryCreate}.

(** [create_job].  [uuid] is the value [uuid4()] draws for the new job;
    [environment_variables or {}] and [tags or []] turn a missing argument
    into the empty value. *)
Definition create_job (now : datetime) (uuid : UUID)
    (name cron_expression command description : string)
    (timeout_seconds max_retries retry_delay_seconds : Z)
    (environment_variables : option (list (string * string)))
    (tags : option (list string)) : exn + Job.t :=
  match get_by_name name with
  | inl e => inl e
  | inr (Some _) => inl (JobNameExists name)
  | inr None =>
      match Job.init now
              {| Job.name := name;
                 Job.cron_expression := cron_expression;
                 Job.command := command;
                 Job.description := description;
                 Job.status := ACTIVE;
                 Job.created_at := now;
                 Job.updated_at := now;
                 Job.last_run := None;
                 Job.next_run := None;
                 Job.timeout_seconds := timeout_seconds;
                 Job.max_retries := max_retries;
                 Job.retry_delay_seconds := retry_delay_seconds;
                 Job.environment_variables :=
                   match environment_variables with
                   | Some given => given
                   | None => []
                   end;
                 Job.tags := match tags with
                             | Some given => given
                             | None => []
                             end;
                 Job.id := None;
                 Job.uuid := uuid |} with
      | inl e => inl e
      | inr job => create job
      end
  end.

End Creation.

End JobDomainService.

(** ** CronCalculator

    The source delegates schedule parsing and the next trigger time to the
    [croniter] package, which is not part of the repository.  This module is
    a model of that component for the standard five-field syntax: minute
    (0-59), hour (0-23), day of month (1-31), month (1-12) and day of week
    (0-7, both 0 and 7 are Sunday); a field is [*] or a comma-separated list
    of items [a], [a-b], [a-b/n] or [*/n].  When both the day of month and
    the day of week are restricted, a day matches if either does. *)

Module CronCalculator.

(** *** Parsing *)

Definition is_digit (c : ascii) : bool :=
  let n := nat_of_ascii c in (48 <=? n)%nat && (n <=? 57)%nat.

Definition digit_value (c : ascii) : Z := Z.of_nat (nat_of_ascii c) - 48.

Fixpoint parse_digits (acc : Z) (s : string) : option Z :=
  match s with
  | EmptyString => Some acc
  | String c rest =>
      if is_digit c then parse_digits (10 * acc + digit_value c) rest
      else None
  end.

(** A non-empty string of decimal digits. *)
Definition parse_number (s : string) : option Z :=
  match s with
  | EmptyString => None
  | String _ _ => parse_digits 0 s
  end.

(** [s.split(sep)]: the pieces between the separators, at least one. *)
Fixpoint split_on (sep : ascii) (s : string) : list string :=
  match s with
  | EmptyString => [EmptyString]
  | String c rest =>
      if Ascii.eqb c sep then EmptyString :: split_on sep rest
      else match split_on sep rest with
           | piece :: pieces => String c piece :: pieces
           | [] => [String c EmptyString]
           end
  end.

(** [s.split()]: the non-empty pieces between blanks. *)
Definition fields_of (s : string) : list string :=
  filter (fun piece => negb (String.eqb piece EmptyString))
         (split_on " "%char s).

(** [a, a + n, a + 2n, ...] up to [b]. *)
Definition range_step (a b n : Z) : list Z :=
  map (fun i => a + n * Z.of_nat i) (seq 0 (S (Z.to_nat ((b - a) / n)))).

(** The bounds of an item without its step: [*] is the whole range. *)
Definition parse_bounds (lo hi : Z) (s : string) : option (Z * Z * bool) :=
  if String.eqb s "*" then Some (lo, hi, true)
  else
    match split_on "-"%char s with
    | [a] =>
        match parse_number a with
        | Some a => Some (a, a, false)
        | None => None
        end
    | [a; b] =>
        match parse_number a, parse_number b with
        | Some a, Some b => Some (a, b, true)
        | _, _ => None
        end
    | _ => None
    end.

(** One item of a field, expanded to the values it allows. *)
Definition parse_item (lo hi : Z) (s : string) : option (list Z) :=
  match split_on "/"%char s with
  | [r] =>
      match parse_bounds lo hi r with
      | Some (a, b, _) =>
          if (lo <=? a) && (a <=? b) && (b <=? hi)
          then Some (range_step a b 1) else None
      | None => None
      end
  | [r; n] =>
      match parse_bounds lo hi r, parse_number n with
      | Some (a, b, true), Some n =>
          if (lo <=? a) && (a <=? b) && (b <=? hi) && (1 <=? n)
          then Some (range_step a b n) else None
      | _, _ => None
      end
  | _ => None
  end.

Fixpoint parse_items (lo hi : Z) (items : list string) : option (list Z) :=
  match items with
  | [] => Some []
  | item :: rest =>
      match parse_item lo hi item, parse_items lo hi rest with
      | Some values, Some more => Some (values ++ more)
      | _, _ => None
      end
  end.

(** A parsed field: unrestricted, or the list of allowed values. *)
Inductive field : Type :=
| Any
| Values (allowed : list Z).

Definition parse_field (lo hi : Z) (s : string) : option field :=
  if String.eqb s "*" then Some Any
  else
    match parse_items lo hi (split_on ","%char s) with
    | Some values => Some (Values values)
    | None => None
    end.

Definition field_matches (f : field) (v : Z) : bool :=
  match f with
  | Any => true
  | Values allowed => existsb (Z.eqb v) allowed
  end.

(** Day-of-week values are taken modulo 7, so that 7 is Sunday. *)
Definition normalize_weekdays (f : field) : field :=
  match f with
  | Any => Any
  | Values allowed => Values (map (fun v => v mod 7) allowed)
  end.

Record schedule : Type := {
  minutes : field;
  hours : field;
  days_of_month : field;
  months : field;
  days_of_week : field
}.

(** Modelled from the spec: the parser of croniter (not in the repository),
    for "a standard 5-field cron (minute, hour, day-of-month, month,
    day-of-week)"; [None] is the expression that "cannot be parsed". *)
Definition parse (expr : string) : option schedule :=
  match fields_of expr with
  | [mi; ho; dom; mo; dow] =>
      match parse_field 0 59 mi, parse_field 0 23 ho, parse_field 1 31 dom,
            parse_field 1 12 mo, parse_field 0 7 dow with
      | Some mi, Some ho, Some dom, Some mo, Some dow =>
          Some {| minutes := mi; hours := ho; days_of_month := dom;
                  months := mo; days_of_week := normalize_weekdays dow |}
      | _, _, _, _, _ => None
      end
  | _ => None
  end.

(** The schedule of ["0 0 31 2 *"]: midnight of every 31st of February. *)
Definition february_31 : schedule :=
  {| minutes := Values [0]; hours := Values [0];
     days_of_month := Values [31]; months := Values [2];
     days_of_week := Any |}.

(** *** Calendar *)

Definition microseconds_per_minute : Z := 60 * microseconds_per_second.
Definition minutes_per_day : Z := 1440.

(** The Gregorian calendar repeats every 400 years, which is a whole
    number of weeks. *)
Definition days_per_era : Z := 146097.

(** Month and day of the month of the day [z] days after 1970-01-01, in the
    proleptic Gregorian calendar.  The day is first counted from a first of
    March of a year divisible by 400. *)
Definition month_and_day (z : Z) : Z * Z :=
  let doe := (z + 719468) mod days_per_era in
  let yoe := (doe - doe / 1460 + doe / 36524 - doe / 146096) / 365 in
  let doy := doe - (365 * yoe + yoe / 4 - yoe / 100) in
  let mp := (5 * doy + 2) / 153 in
  let d := doy - (153 * mp + 2) / 5 + 1 in
  let m := if mp <? 10 then mp + 3 else mp - 9 in
  (m, d).

(** Day of the week of day [z], Sunday is 0; 1970-01-01 was a Thursday. *)
Definition weekday (z : Z) : Z := (z + 4) mod 7.

(** *** Matching *)

Definition day_matches (s : schedule) (z : Z) : bool :=
  let '(m, d) := month_and_day z in
  field_matches s.(months) m
  && match s.(days_of_month), s.(days_of_week) with
     | Any, dow => field_matches dow (weekday z)
     | dom, Any => field_matches dom d
     | dom, dow => field_matches dom d || field_matches dow (weekday z)
     end.

(** [k] is a minute of the day, [0 <= k < 1440]. *)
Definition minute_of_day_matches (s : schedule) (k : Z) : bool :=
  field_matches s.(minutes) (k mod 60) && field_matches s.(hours) (k / 60).


(** *** Next trigger time *)

(** The least [i] with [p i] among [start, start + 1, ...], [count] of
    them. *)
Fixpoint find_from (p : Z -> bool) (start : Z) (count : nat) : option Z :=
  match count with
  | O => None
  | S count' =>
      if p start then Some start else find_from p (start + 1) count'
  end.

Definition first_minute_from (s : schedule) (k : Z) : option Z :=
  find_from (minute_of_day_matches s) k (Z.to_nat (minutes_per_day - k)).

Definition time_of_minute (n : Z) : datetime := n * microseconds_per_minute.

(** Modelled from the spec: [get_next] of croniter (not in the repository),
    "the next trigger time".  It is the first minute after [base] at which
    the schedule fires: later on the day of [base], or else the first
    matching minute of the next matching day, looked for through one full
    period of the calendar; [None] when no day matches. *)
Definition next_trigger (s : schedule) (base : datetime) : option datetime :=
  let n := base / microseconds_per_minute + 1 in
  let z := n / minutes_per_day in
  let today :=
    if day_matches s z then first_minute_from s (n mod minutes_per_day)
    else None in
  match today with
  | Some k => Some (time_of_minute (z * minutes_per_day + k))
  | None =>
      match find_from (day_matches s) (z + 1) (Z.to_nat days_per_era),
            first_minute_from s 0 with
      | Some z', Some k => Some (time_of_minute (z' * minutes_per_day + k))
      | _, _ => None
      end
  end.

(** Modelled from the spec: the CronCalculator of section 4.1, which the
    source takes from the croniter package (not in the repository).  An
    expression is accepted when it parses as a five-field cron expression;
    the next run is the first trigger time strictly after the base time. *)
Definition croniter : Croniter :=
  {| croniter_accepts expr :=
       match parse expr with Some _ => true | None => false end;
     croniter_get_next expr base :=
       match parse expr with
       | Some s => next_trigger s base
       | None => None
       end |}.

End CronCalculator.


(** ** Sample entities *)

(** A job as [Job(name="daily-backup", cron_expression="* * * * *",
    command="backup.sh")] leaves it when it is built at time 0 and then
    stored under id 1. *)
Definition sample_job : Job.t :=
  {| Job.name := "daily-backup"; Job.cron_expression := "* * * * *";
     Job.command := "backup.sh"; Job.description := "";
     Job.status := ACTIVE; Job.created_at := 0; Job.updated_at := 0;
     Job.last_run := None; Job.next_run := Some 60000000;
     Job.timeout_seconds := 300; Job.max_retries := 3;
     Job.retry_delay_seconds := 60; Job.environment_variables := [];
     Job.tags := []; Job.id := Some 1; Job.uuid := 1001 |}.

(** A pending execution of [sample_job], as [create_job_execution] builds
    it. *)
Definition sample_execution : JobExecution.t :=
  {| JobExecution.job_id := Some 1; JobExecution.job_uuid := 1001;
     JobExecution.status := PENDING; JobExecution.scheduled_time := 60000000;
     JobExecution.started_at := None; JobExecution.finished_at := None;
     JobExecution.exit_code := None; JobExecution.stdout := "";
     JobExecution.stderr := ""; JobExecution.error_message := "";
     JobExecution.retry_count := 0; JobExecution.environment_variables := [];
     JobExecution.execution_metadata := []; JobExecution.id := Some 7;
     JobExecution.uuid := 2001 |}.

(** A second job that is due at the same time as [sample_job], stored under
    the later id 2. *)
Definition second_job : Job.t :=
  {| Job.name := "weekly-report"; Job.cron_expression := "* * * * *";
     Job.command := "report.sh"; Job.description := "";
     Job.status := ACTIVE; Job.created_at := 0; Job.updated_at := 0;
     Job.last_run := None; Job.next_run := Some 60000000;
     Job.timeout_seconds := 300; Job.max_retries := 3;
     Job.retry_delay_seconds := 60; Job.environment_variables := [];
     Job.tags := []; Job.id := Some 2; Job.uuid := 1002 |}.

(** A repository over a fixed list of stored jobs, for the examples:
    lookups return the stored entity, the due-job query returns the active
    jobs whose [next_run] has passed in their stored order, and [update]
    accepts every job. *)
Definition in_memory_repository (jobs : list Job.t) : JobRepositoryInterface :=
  {| get_by_id job_id :=
       inr (find (fun j => match j.(Job.id) with
                           | Some i => i =? job_id
                           | None => false
                           end) jobs);
     get_by_name name :=
       inr (find (fun j => String.eqb j.(Job.name) name) jobs);
     get_due_jobs now :=
       inr (filter (fun j => JobStatus_eqb j.(Job.status) ACTIVE
                             && match j.(Job.next_run) with
                                | Some next => next <=? now
                                | None => false
                                end) jobs);
     update job := inr job |}.

(** A repository whose [create] gives the new job the id 100. *)
Definition assigning_repository : JobRepositoryCreate :=
  {| create job :=
       inr {| Job.name := job.(Job.name);
              Job.cron_expression := job.(Job.cron_expression);
              Job.command := job.(Job.command);
              Job.description := job.(Job.description);
              Job.status := job.(Job.status);
              Job.created_at := job.(Job.created_at);
              Job.updated_at := job.(Job.updated_at);
              Job.last_run := job.(Job.last_run);
              Job.next_run := job.(Job.next_run);
              Job.timeout_seconds := job.(Job.timeout_seconds);
              Job.max_retries := job.(Job.max_retries);
              Job.retry_delay_seconds := job.(Job.retry_delay_seconds);
              Job.environment_variables := job.(Job.environment_variables);
              Job.tags := job.(Job.tags);
              Job.id := Some 100;
              Job.uuid := job.(Job.uuid) |} |}.

(** An execution history served from a fixed list. *)
Definition in_memory_executions (executions : list JobExecution.t)
  : JobExecutionRepositoryInterface :=
  {| get_by_job_id _ := inr executions |}.

(** The order the specification asks of the due jobs: [next_run]
    ascending, ties broken by job id ascending. *)
Definition due_order (a b : Job.t) : Prop :=
  match a.(Job.next_run), b.(Job.next_run) with
  | Some ta, Some tb =>
      ta < tb
      \/ (ta = tb /\ match a.(Job.id), b.(Job.id) with
                     | Some ia, Some ib => ia <= ib
                     | _, _ => False
                     end)
  | _, _ => False
  end.

(** The order a repository that sorts by [next_run] alone provides. *)
Definition next_run_order (a b : Job.t) : Prop :=
  match a.(Job.next_run), b.(Job.next_run) with
  | Some ta, Some tb => ta <= tb
  | _, _ => False
  end.

(** The fields of a job that [update_job] has no parameter for and no
    statement about. *)
Definition same_fixed_fields (a b : Job.t) : Prop :=
  a.(Job.status) = b.(Job.status)
  /\ a.(Job.created_at) = b.(Job.created_at)
  /\ a.(Job.last_run) = b.(Job.last_run)
  /\ a.(Job.environment_variables) = b.(Job.environment_variables)
  /\ a.(Job.tags) = b.(Job.tags)
  /\ a.(Job.id) = b.(Job.id)
  /\ a.(Job.uuid) = b.(Job.uuid).

(** A computation on a job that leaves those fields alone, whether it
    returns or raises. *)
Definition keeps_fixed_fields {A : Type} (m : M Job.t A) : Prop :=
  forall j, same_fixed_fields j (snd (m j)).

(** * Properties *)

(** ** JobExecution: status transitions *)

Lemma is_completed_status (e : JobExecution.t) :
  JobExecution.is_completed e = true <->
  In e.(JobExecution.status) [SUCCESS; FAILED; TIMEOUT; CANCELLED].
Proof.
  unfold JobExecution.is_completed; simpl.
  destruct (JobExecution.status e); split; intros H;
    try reflexivity; try discriminate; try tauto;
    repeat (destruct H as [H | H]; try discriminate H); try contradiction.
Qed.

(** C3, as the specification states it, fails: [start] puts a successful
    execution back to [RUNNING], and [cancel] replaces [SUCCESS] by
    [CANCELLED]. *)
Lemma terminal_status_is_overwritten :
  let e := JobExecution.complete_success 0 "ok" 120000000
             (JobExecution.start 60000000 sample_execution) in
  JobExecution.is_completed e = true
  /\ e.(JobExecution.status) = SUCCESS
  /\ (JobExecution.apply (JobExecution.Start 180000000) e).(JobExecution.status)
     = RUNNING
  /\ (JobExecution.apply (JobExecution.Cancel "stop" 180000000) e).(JobExecution.status)
     = CANCELLED.
Proof. repeat split. Qed.

(** C3 (amended): [start], [complete_success], [complete_failure],
    [timeout] and [cancel] set the status to [RUNNING], [SUCCESS], [FAILED],
    [TIMEOUT] and [CANCELLED] from every status, the terminal ones included;
    [prepare_retry] is the only guarded operation: it moves [FAILED] and
    [TIMEOUT] to [RETRYING] and leaves an execution in any other status,
    [SUCCESS] and [CANCELLED] among them, exactly as it was. *)
Theorem execution_status_after_operation (op : JobExecution.operation)
    (e : JobExecution.t) :
  (JobExecution.apply op e).(JobExecution.status) =
    match op with
    | JobExecution.Start _ => RUNNING
    | JobExecution.CompleteSuccess _ _ _ => SUCCESS
    | JobExecution.CompleteFailure _ _ _ _ => FAILED
    | JobExecution.Timeout _ _ => TIMEOUT
    | JobExecution.Cancel _ _ => CANCELLED
    | JobExecution.PrepareRetry =>
        match e.(JobExecution.status) with
        | FAILED | TIMEOUT => RETRYING
        | other => other
        end
    end
  /\ (op = JobExecution.PrepareRetry ->
      e.(JobExecution.status) <> FAILED ->
      e.(JobExecution.status) <> TIMEOUT ->
      JobExecution.apply op e = e).
Proof.
  split.
  - destruct op; try reflexivity.
    simpl. unfold JobExecution.prepare_retry, JobExecution.can_retry.
    destruct (JobExecution.status e) eqn:E; simpl; auto.
  - intros -> HF HT. simpl.
    unfold JobExecution.prepare_retry, JobExecution.can_retry.
    destruct (JobExecution.status e); congruence.
Qed.

Lemma execution_status_after_operation_witness :
  let e := JobExecution.cancel "stop" 120000000 sample_execution in
  JobExecution.apply JobExecution.PrepareRetry e = e.
Proof.
  intro e.
  apply (proj2 (execution_status_after_operation JobExecution.PrepareRetry e)).
  - reflexivity.
  - simpl. discriminate.
  - simpl. discriminate.
Defined.

(** ** Job: lifecycle *)

Section JobLifecycle.
Context {cron : Croniter}.

(** Computing the next run never touches the status, whether it returns or
    raises. *)
Lemma calculate_next_run_status (base : datetime) (j : Job.t) :
  (exec (Job.calculate_next_run base) j).(Job.status) = j.(Job.status).
Proof.
  unfold exec, Job.calculate_next_run, bind, get, modify, ret, raise; simpl.
  destruct (croniter_accepts (Job.cron_expression j)); [|reflexivity].
  destruct (croniter_get_next (Job.cron_expression j) base); reflexivity.
Qed.

Lemma mark_as_executed_status (at_ : datetime) (j : Job.t) :
  (exec (Job.mark_as_executed at_) j).(Job.status) = j.(Job.status).
Proof.
  unfold exec, Job.mark_as_executed, Job.calculate_next_run,
    bind, get, modify, ret, raise; simpl.
  destruct (croniter_accepts (Job.cron_expression j)); [|reflexivity].
  destruct (croniter_get_next (Job.cron_expression j) at_); reflexivity.
Qed.

(** An operation other than [deactivate] leaves a deleted job deleted. *)
Lemma deleted_is_kept (op : Job.operation) (j : Job.t) :
  Job.is_deactivate op = false ->
  j.(Job.status) = DELETED ->
  (Job.apply op j).(Job.status) = DELETED.
Proof.
  intros Hop Hdel. destruct op; simpl in *; try discriminate.
  - unfold exec, Job.activate, bind, get. simpl. rewrite Hdel. simpl.
    exact Hdel.
  - unfold Job.pause. rewrite Hdel. simpl. exact Hdel.
  - unfold exec, Job.resume, bind, get. simpl. rewrite Hdel. simpl.
    exact Hdel.
  - reflexivity.
  - rewrite mark_as_executed_status. exact Hdel.
Qed.

Lemma deleted_is_kept_by_all (ops : list Job.operation) (j : Job.t) :
  forallb (fun op => negb (Job.is_deactivate op)) ops = true ->
  j.(Job.status) = DELETED ->
  (fold_left (fun job op => Job.apply op job) ops j).(Job.status) = DELETED.
Proof.
  revert j. induction ops as [|op ops IH]; intros j Hops Hdel; simpl in *.
  - exact Hdel.
  - apply andb_prop in Hops. destruct Hops as [Hop Hops].
    apply IH; [exact Hops|].
    apply deleted_is_kept; [|exact Hdel].
    now apply negb_true_iff.
Qed.

(** C4 (amended): after [soft_delete] the status is [DELETED] and
    [next_run] is null; from then on every sequence of [activate], [pause],
    [resume], [mark_as_executed] and [soft_delete] calls leaves the status
    [DELETED], whatever the calls return or raise; [deactivate] is
    unguarded and moves the deleted job to [INACTIVE]. *)
Theorem soft_delete_then_lifecycle (now : datetime) (j : Job.t)
    (ops : list Job.operation) :
  forallb (fun op => negb (Job.is_deactivate op)) ops = true ->
  let deleted := Job.soft_delete now j in
  deleted.(Job.status) = DELETED
  /\ deleted.(Job.next_run) = None
  /\ (fold_left (fun job op => Job.apply op job) ops deleted).(Job.status)
     = DELETED
  /\ forall now', (Job.deactivate now' deleted).(Job.status) = INACTIVE.
Proof.
  intros Hops deleted. repeat split.
  apply deleted_is_kept_by_all; [exact Hops|reflexivity].
Qed.

End JobLifecycle.

(** C4, as the specification states it, fails: [deactivate] on a deleted
    job sets the status to [INACTIVE]. *)
Lemma deactivate_revives_deleted_job :
  let deleted := Job.soft_delete 100 sample_job in
  deleted.(Job.status) = DELETED
  /\ (Job.deactivate 200 deleted).(Job.status) = INACTIVE
  /\ (Job.deactivate 200 deleted).(Job.status) <> DELETED.
Proof. repeat split. simpl. discriminate. Qed.

Lemma soft_delete_then_lifecycle_witness :
  let ops := [Job.Activate 200; Job.Pause 300; Job.Resume 400;
              Job.MarkAsExecuted 500; Job.SoftDelete 600] in
  let deleted := Job.soft_delete 100 sample_job in
  deleted.(Job.status) = DELETED
  /\ deleted.(Job.next_run) = None
  /\ (fold_left (fun job op => @Job.apply CronCalculator.croniter op job)
        ops deleted).(Job.status) = DELETED
  /\ forall now', (Job.deactivate now' deleted).(Job.status) = INACTIVE.
Proof.
  intro ops.
  apply (@soft_delete_then_lifecycle CronCalculator.croniter 100 sample_job ops).
  reflexivity.
Defined.

(** ** Retry policy *)

Lemma JobStatus_eqb_eq (a b : JobStatus) : JobStatus_eqb a b = true <-> a = b.
Proof. destruct a, b; simpl; split; intros H; congruence. Qed.

Lemma ExecutionStatus_eqb_eq (a b : ExecutionStatus) :
  ExecutionStatus_eqb a b = true <-> a = b.
Proof. destruct a, b; simpl; split; intros H; congruence. Qed.

Lemma can_retry_status (e : JobExecution.t) :
  JobExecution.can_retry e = true <->
  e.(JobExecution.status) = FAILED \/ e.(JobExecution.status) = TIMEOUT.
Proof.
  unfold JobExecution.can_retry.
  destruct (JobExecution.status e); split; intros H; auto;
    try discriminate; destruct H; discriminate.
Qed.

(** The uncapped delay is positive and grows with the retry count. *)
Lemma uncapped_delay_increasing (d r1 r2 : Z) :
  0 < d -> 0 <= r1 < r2 -> d * 2 ^ r1 < d * 2 ^ r2.
Proof.
  intros Hd Hr. apply Z.mul_lt_mono_pos_l; [exact Hd|].
  apply Z.pow_lt_mono_r; lia.
Qed.

(** C5: the retry time is the base time plus
    [min(retry_delay_seconds * 2^retry_count, 3600)] seconds, and the delay
    lies between 0 and 3600 seconds for every retry count. *)
Theorem calculate_retry_time_backoff (execution : JobExecution.t)
    (job : Job.t) (now : datetime) :
  0 <= execution.(JobExecution.retry_count) ->
  0 <= job.(Job.retry_delay_seconds) ->
  let d := job.(Job.retry_delay_seconds) in
  let r := execution.(JobExecution.retry_count) in
  JobDomainService.calculate_retry_time execution job now
    = now + 1000000 * Z.min (d * 2 ^ r) 3600
  /\ JobDomainService.retry_delay execution job = Z.min (d * 2 ^ r) 3600
  /\ 0 <= JobDomainService.retry_delay execution job <= 3600
  /\ now <= JobDomainService.calculate_retry_time execution job now
         <= add_seconds now 3600.
Proof.
  intros Hr Hd d r.
  assert (Hpow : 0 < 2 ^ r) by (apply Z.pow_pos_nonneg; lia).
  assert (Hdelay : 0 <= Z.min (d * 2 ^ r) 3600 <= 3600).
  { split; [apply Z.min_glb; nia | apply Z.le_min_r]. }
  unfold JobDomainService.calculate_retry_time, JobDomainService.retry_delay,
    add_seconds, microseconds_per_second.
  fold d r. repeat split; lia.
Qed.

Lemma calculate_retry_time_backoff_witness :
  let job := Job.set_retry_delay_seconds 10 (Job.set_max_retries 2 sample_job) in
  let second :=
    JobExecution.set_retry_count 1
      (JobExecution.set_status FAILED sample_execution) in
  JobDomainService.calculate_retry_time second job 5000000
    = 5000000 + 1000000 * Z.min (10 * 2 ^ 1) 3600
  /\ JobDomainService.retry_delay second job = Z.min (10 * 2 ^ 1) 3600
  /\ 0 <= JobDomainService.retry_delay second job <= 3600
  /\ 5000000 <= JobDomainService.calculate_retry_time second job 5000000
              <= add_seconds 5000000 3600.
Proof.
  intros job second.
  apply (calculate_retry_time_backoff second job 5000000); simpl; lia.
Defined.

(** Scenario A of the specification: with a base delay of 10 seconds the
    first retry waits 10 seconds and the second 20. *)
Example scenario_A_delays :
  let job := Job.set_retry_delay_seconds 10 (Job.set_max_retries 2 sample_job) in
  let first := JobExecution.set_status FAILED sample_execution in
  let second := JobExecution.set_retry_count 1 first in
  JobDomainService.retry_delay first job = 10
  /\ JobDomainService.retry_delay second job = 20
  /\ JobDomainService.calculate_retry_time first job 0 = 10000000
  /\ JobDomainService.calculate_retry_time second job 0 = 20000000.
Proof. repeat split. Qed.

(** C6, as the specification states it, fails for a base delay of 0, which
    the service accepts: every delay is then 0. *)
Lemma zero_delay_does_not_increase :
  let job := Job.set_retry_delay_seconds 0 sample_job in
  let e1 := JobExecution.set_retry_count 0 sample_execution in
  let e2 := JobExecution.set_retry_count 1 sample_execution in
  0 <= job.(Job.retry_delay_seconds)
  /\ e1.(JobExecution.retry_count) < e2.(JobExecution.retry_count)
  /\ JobDomainService.retry_delay e1 job < 3600
  /\ JobDomainService.retry_delay e2 job < 3600
  /\ ~ JobDomainService.retry_delay e1 job < JobDomainService.retry_delay e2 job.
Proof. simpl. unfold JobDomainService.retry_delay. simpl. lia. Qed.

(** C6 (amended): for a positive [retry_delay_seconds] and retry counts
    [0 <= r1 < r2] whose delays are both below the 3600-second cap, the
    delay at [r2] is strictly greater than the delay at [r1]. *)
Theorem retry_delay_strictly_increasing (e1 e2 : JobExecution.t)
    (job : Job.t) :
  0 < job.(Job.retry_delay_seconds) ->
  0 <= e1.(JobExecution.retry_count) < e2.(JobExecution.retry_count) ->
  JobDomainService.retry_delay e1 job < 3600 ->
  JobDomainService.retry_delay e2 job < 3600 ->
  JobDomainService.retry_delay e1 job < JobDomainService.retry_delay e2 job.
Proof.
  unfold JobDomainService.retry_delay. intros Hd Hr H1 H2.
  pose proof (uncapped_delay_increasing _ _ _ Hd Hr). lia.
Qed.

Lemma retry_delay_strictly_increasing_witness :
  let job := Job.set_retry_delay_seconds 10 sample_job in
  let e1 := JobExecution.set_retry_count 2 sample_execution in
  let e2 := JobExecution.set_retry_count 5 sample_execution in
  JobDomainService.retry_delay e1 job < JobDomainService.retry_delay e2 job.
Proof.
  intros job e1 e2.
  apply (retry_delay_strictly_increasing e1 e2 job).
  - simpl. lia.
  - simpl. lia.
  - vm_compute. reflexivity.
  - vm_compute. reflexivity.
Defined.

(** C7: [should_retry_execution] is false exactly when the retry count has
    reached [max_retries], or the execution is neither [FAILED] nor
    [TIMEOUT], or the job is not [ACTIVE]; so it is false for a [FAILED]
    execution whose retry count equals [max_retries]. *)
Theorem should_retry_execution_false_iff (execution : JobExecution.t)
    (job : Job.t) :
  (JobDomainService.should_retry_execution execution job = false <->
     execution.(JobExecution.retry_count) >= job.(Job.max_retries)
     \/ ~ (execution.(JobExecution.status) = FAILED
           \/ execution.(JobExecution.status) = TIMEOUT)
     \/ job.(Job.status) <> ACTIVE)
  /\ (execution.(JobExecution.retry_count) = job.(Job.max_retries) ->
      execution.(JobExecution.status) = FAILED ->
      JobDomainService.should_retry_execution execution job = false).
Proof.
  unfold JobDomainService.should_retry_execution.
  pose proof (can_retry_status execution) as Hcan.
  pose proof (JobStatus_eqb_eq job.(Job.status) ACTIVE) as Hact.
  destruct (Z.leb_spec job.(Job.max_retries)
              execution.(JobExecution.retry_count)) as [Hle | Hgt].
  - split; [split; [intros _; left; lia | reflexivity] | reflexivity].
  - split; [| intros; lia].
    destruct (JobExecution.can_retry execution); simpl.
    + destruct (JobStatus_eqb (Job.status job) ACTIVE); simpl.
      * split; [discriminate |].
        intros [H | [H | H]]; [lia | | ].
        -- exfalso. apply H. now apply Hcan.
        -- exfalso. apply H. now apply Hact.
      * split; [| reflexivity]. intros _. right. right.
        intros H. apply Hact in H. discriminate.
    + split; [| reflexivity]. intros _. right. left.
      intros H. apply Hcan in H. discriminate.
Qed.

Lemma should_retry_execution_false_iff_witness :
  let job := Job.set_max_retries 2 sample_job in
  let execution :=
    JobExecution.set_retry_count 2
      (JobExecution.set_status FAILED sample_execution) in
  JobDomainService.should_retry_execution execution job = false.
Proof.
  intros job execution.
  apply (proj2 (should_retry_execution_false_iff execution job));
    reflexivity.
Defined.

(** ** Job: tags *)

Lemma str_in_In (x : string) (xs : list string) :
  str_in x xs = true <-> In x xs.
Proof.
  unfold str_in. rewrite existsb_exists. split.
  - intros (y & Hy & Heq). apply String.eqb_eq in Heq. now subst.
  - intros H. exists x. split; [exact H | apply String.eqb_refl].
Qed.

Lemma list_remove_subset (x y : string) (xs : list string) :
  In y (list_remove x xs) -> In y xs.
Proof.
  induction xs as [|z zs IH]; simpl; [tauto|].
  destruct (String.eqb x z); simpl; tauto.
Qed.

Lemma list_remove_NoDup (x : string) (xs : list string) :
  NoDup xs -> NoDup (list_remove x xs).
Proof.
  induction 1 as [|z zs Hz Hzs IH]; simpl; [constructor|].
  destruct (String.eqb x z); [exact Hzs|].
  constructor; [|exact IH].
  intros Hin. apply Hz. eapply list_remove_subset; eassumption.
Qed.

Lemma add_tag_NoDup (now : datetime) (tag : string) (j : Job.t) :
  NoDup j.(Job.tags) -> NoDup (Job.add_tag now tag j).(Job.tags).
Proof.
  intros Hnd. unfold Job.add_tag.
  destruct (str_in tag (Job.tags j)) eqn:Hin; simpl; [exact Hnd|].
  apply NoDup_app; [exact Hnd | repeat constructor; simpl; tauto |].
  intros x Hx [<- | []].
  apply str_in_In in Hx. congruence.
Qed.

Lemma apply_tag_NoDup (op : Job.tag_operation) (j : Job.t) :
  NoDup j.(Job.tags) -> NoDup (Job.apply_tag op j).(Job.tags).
Proof.
  intros Hnd. destruct op as [now tag | now tag]; simpl.
  - now apply add_tag_NoDup.
  - unfold Job.remove_tag.
    destruct (str_in tag (Job.tags j)); simpl; [|exact Hnd].
    now apply list_remove_NoDup.
Qed.

Lemma add_tag_adds (now : datetime) (tag : string) (j : Job.t) :
  In tag (Job.add_tag now tag j).(Job.tags).
Proof.
  unfold Job.add_tag.
  destruct (str_in tag (Job.tags j)) eqn:Hin; simpl.
  - now apply str_in_In.
  - apply in_or_app. right. simpl. tauto.
Qed.

(** C10: [add_tag] with a tag the job already has returns the job as it
    was, every field included; so a second [add_tag] of the same tag
    changes nothing, and the tags stay free of duplicates under every
    sequence of [add_tag] and [remove_tag] calls that starts from a
    duplicate-free list, such as the empty list a new job has. *)
Theorem add_tag_idempotent (now : datetime) (tag : string) (j : Job.t) :
  (In tag j.(Job.tags) -> Job.add_tag now tag j = j)
  /\ (forall now',
        Job.add_tag now' tag (Job.add_tag now tag j) = Job.add_tag now tag j)
  /\ (forall ops : list Job.tag_operation,
        NoDup j.(Job.tags) ->
        NoDup (fold_left (fun job op => Job.apply_tag op job) ops j).(Job.tags)).
Proof.
  assert (Hnoop : forall now0 job,
             In tag job.(Job.tags) -> Job.add_tag now0 tag job = job).
  { intros now0 job Hin. unfold Job.add_tag.
    apply str_in_In in Hin. now rewrite Hin. }
  split; [apply Hnoop|]. split.
  - intros now'. apply Hnoop. apply add_tag_adds.
  - intros ops. revert j. induction ops as [|op ops IH]; intros j Hnd; simpl.
    + exact Hnd.
    + apply IH. now apply apply_tag_NoDup.
Qed.

Lemma add_tag_idempotent_witness :
  let j := Job.add_tag 100 "backup" sample_job in
  Job.add_tag 200 "backup" j = j.
Proof.
  intro j.
  apply (proj1 (add_tag_idempotent 200 "backup" j)).
  simpl. left. reflexivity.
Defined.

(** The test of the repository: two tags added, one removed. *)
Example test_add_and_remove_tags :
  let j := Job.add_tag 2 "important" (Job.add_tag 1 "backup" sample_job) in
  j.(Job.tags) = ["backup"; "important"]
  /\ (Job.remove_tag 3 "backup" j).(Job.tags) = ["important"].
Proof. split; reflexivity. Qed.

(** ** Scheduling service: due jobs *)

Lemma append_loop_is_filter {A} (p : A -> bool) (xs acc : list A) :
  fold_left (fun kept x => if p x then kept ++ [x] else kept) xs acc
  = acc ++ filter p xs.
Proof.
  revert acc. induction xs as [|x xs IH]; intros acc; simpl.
  - now rewrite app_nil_r.
  - rewrite IH. destruct (p x); [|reflexivity].
    now rewrite <- app_assoc.
Qed.

Lemma StronglySorted_filter {A} (R : A -> A -> Prop) (p : A -> bool)
    (xs : list A) :
  StronglySorted R xs -> StronglySorted R (filter p xs).
Proof.
  induction 1 as [|x xs Hs IH Hx]; simpl; [constructor|].
  destruct (p x); [|exact IH].
  constructor; [exact IH|].
  rewrite Forall_forall in *. intros y Hy.
  apply Hx. apply filter_In in Hy. tauto.
Qed.

Section DueJobs.
Context {cron : Croniter}.
Context {job_repository : JobRepositoryInterface}.
Context {execution_repository : JobExecutionRepositoryInterface}.

Lemma eligible_iff (job : Job.t) (now : datetime) :
  JobDomainService._is_job_eligible_for_execution job now = true <->
  job.(Job.status) = ACTIVE /\ Job.is_due now job = true.
Proof.
  unfold JobDomainService._is_job_eligible_for_execution.
  pose proof (JobStatus_eqb_eq job.(Job.status) ACTIVE) as Hact.
  destruct (JobStatus_eqb (Job.status job) ACTIVE); simpl.
  - destruct (Job.is_due now job); simpl; split; intros H;
      try discriminate; try tauto.
  - split; [discriminate|]. intros [H _]. apply Hact in H. discriminate.
Qed.

(** C2 (amended): the service returns exactly the candidates of the
    repository that are [ACTIVE] and due, in the order in which the
    repository returned them; it does not sort.  So the result is ordered by
    [next_run] ascending when the candidates are, as with any other order
    of the candidates, and a tie between two jobs is left as the repository
    had it, not broken by job id. *)
Theorem get_jobs_due_for_execution_filters (now : datetime)
    (candidates : list Job.t) :
  get_due_jobs now = inr candidates ->
  exists due : list Job.t,
    JobDomainService.get_jobs_due_for_execution now = inr due
    /\ due = filter (fun job => JobStatus_eqb job.(Job.status) ACTIVE
                                && Job.is_due now job) candidates
    /\ (forall job, In job due <->
                    In job candidates /\ job.(Job.status) = ACTIVE
                    /\ Job.is_due now job = true)
    /\ (forall R : Job.t -> Job.t -> Prop,
          StronglySorted R candidates -> StronglySorted R due).
Proof.
  intros Hrepo.
  unfold JobDomainService.get_jobs_due_for_execution. rewrite Hrepo.
  rewrite (append_loop_is_filter
             (fun job => JobDomainService._is_job_eligible_for_execution job now)).
  simpl. eexists. split; [reflexivity|].
  assert (Hext : forall job,
             JobDomainService._is_job_eligible_for_execution job now
             = JobStatus_eqb job.(Job.status) ACTIVE && Job.is_due now job).
  { intros job. unfold JobDomainService._is_job_eligible_for_execution.
    destruct (JobStatus_eqb (Job.status job) ACTIVE),
      (Job.is_due now job); reflexivity. }
  split; [apply filter_ext; exact Hext|]. split.
  - intros job. rewrite filter_In, eligible_iff. tauto.
  - intros R. apply StronglySorted_filter.
Qed.

End DueJobs.

(** C2, as the specification states it, fails: two due jobs with the same
    [next_run] that the repository returns with id 2 before id 1 (sorted by
    [next_run], as its query asks) come back in that order. *)
Lemma due_jobs_tie_not_broken_by_id :
  let repository := in_memory_repository [second_job; sample_job] in
  @get_due_jobs repository 60000000 = inr [second_job; sample_job]
  /\ StronglySorted next_run_order [second_job; sample_job]
  /\ @JobDomainService.get_jobs_due_for_execution repository 60000000
     = inr [second_job; sample_job]
  /\ ~ StronglySorted due_order [second_job; sample_job].
Proof.
  repeat split.
  - repeat constructor; unfold next_run_order; simpl; lia.
  - intros H. inversion H as [|? ? _ Hall]; subst.
    inversion Hall as [|? ? Hord _]; subst.
    unfold due_order in Hord. simpl in Hord. lia.
Qed.

Lemma get_jobs_due_for_execution_filters_witness :
  let repository := in_memory_repository [second_job; sample_job] in
  exists due : list Job.t,
    @JobDomainService.get_jobs_due_for_execution repository 60000000 = inr due
    /\ due = filter (fun job => JobStatus_eqb job.(Job.status) ACTIVE
                                && Job.is_due 60000000 job)
                    [second_job; sample_job]
    /\ (forall job, In job due <->
                    In job [second_job; sample_job]
                    /\ job.(Job.status) = ACTIVE
                    /\ Job.is_due 60000000 job = true)
    /\ (forall R : Job.t -> Job.t -> Prop,
          StronglySorted R [second_job; sample_job] -> StronglySorted R due).
Proof.
  intro repository.
  apply (@get_jobs_due_for_execution_filters repository 60000000
           [second_job; sample_job]).
  reflexivity.
Defined.

(** ** Scheduling service: update *)

Section Update.
Context {cron : Croniter}.
Context {job_repository : JobRepositoryInterface}.

(** What [update_job] does with a cron expression that [croniter] rejects,
    when no new name is given: the expression is assigned first and
    validated afterwards, so the call raises the validation error and the
    fetched entity keeps the rejected expression; nothing else is touched
    and the repository's [update] is not reached. *)
Lemma update_job_rejected_expression (now : datetime) (job_id : Z)
    (job : Job.t) (expr : string) (command description : option string)
    (timeout_seconds max_retries retry_delay_seconds : option Z) :
  get_by_id job_id = inr (Some job) ->
  croniter_accepts expr = false ->
  JobDomainService.update_job now job_id None (Some expr) command description
    timeout_seconds max_retries retry_delay_seconds
  = (inl (InvalidCronExpression expr),
     Some (Job.set_cron_expression expr job)).
Proof.
  intros Hget Hbad.
  unfold JobDomainService.update_job. rewrite Hget.
  unfold JobDomainService.update_fields, Job.validate_cron_expression,
    bind, get, modify, ret, raise.
  simpl. rewrite Hbad. reflexivity.
Qed.

End Update.

(** C1: the failing input.  The stored job has the expression
    ["* * * * *"]; [update_job(1, cron_expression="invalid cron")] raises the
    validation error, as the claim says, but leaves the entity with
    [cron_expression = "invalid cron"], which the claim excludes. *)
Theorem update_job_invalid_cron_mutates_entity :
  let repository := in_memory_repository [sample_job] in
  @croniter_accepts CronCalculator.croniter "invalid cron" = false
  /\ @get_by_id repository 1 = inr (Some sample_job)
  /\ @JobDomainService.update_job CronCalculator.croniter repository
       5000000 1 None (Some "invalid cron") None None None None None
     = (inl (InvalidCronExpression "invalid cron"),
        Some (Job.set_cron_expression "invalid cron" sample_job))
  /\ sample_job.(Job.cron_expression) = "* * * * *"
  /\ (Job.set_cron_expression "invalid cron" sample_job).(Job.cron_expression)
     = "invalid cron"
  /\ Job.set_cron_expression "invalid cron" sample_job <> sample_job.
Proof.
  intro repository.
  assert (Hbad : @croniter_accepts CronCalculator.croniter "invalid cron" = false)
    by reflexivity.
  assert (Hget : @get_by_id repository 1 = inr (Some sample_job))
    by reflexivity.
  split; [exact Hbad|]. split; [exact Hget|]. split.
  - exact (@update_job_rejected_expression CronCalculator.croniter repository
             5000000 1 sample_job "invalid cron" None None None None None
             Hget Hbad).
  - split; [reflexivity|]. split; [reflexivity|].
    intros H. apply (f_equal Job.cron_expression) in H. discriminate H.
Qed.

(** The same call with a new, unused name as well: the name is assigned
    before the expression is validated, so both fields are changed when the
    call raises. *)
Example update_job_invalid_cron_keeps_new_name :
  let repository := in_memory_repository [sample_job] in
  @JobDomainService.update_job CronCalculator.croniter repository
    5000000 1 (Some "nightly-backup") (Some "invalid cron")
    None None None None None
  = (inl (InvalidCronExpression "invalid cron"),
     Some (Job.set_cron_expression "invalid cron"
             (Job.set_name "nightly-backup" sample_job))).
Proof. reflexivity. Qed.

(** With a valid expression the update goes through and [next_run] is
    computed again from the current time. *)
Example update_job_valid_cron :
  let repository := in_memory_repository [sample_job] in
  match @JobDomainService.update_job CronCalculator.croniter repository
          5000000 1 None (Some "*/5 * * * *") None None None None None with
  | (inr updated, Some entity) =>
      updated = entity
      /\ updated.(Job.cron_expression) = "*/5 * * * *"
      /\ updated.(Job.next_run) = Some 300000000
      /\ updated.(Job.updated_at) = 5000000
  | _ => False
  end.
Proof. vm_compute. repeat split. Qed.

(** ** Scheduling service: statistics *)

Lemma int_sum_ones {A} (xs : list A) :
  int_sum (map (fun _ => 1) xs) = Z.of_nat (List.length xs).
Proof.
  unfold int_sum.
  assert (H : forall acc, fold_left Z.add (map (fun _ : A => 1) xs) acc
                          = acc + Z.of_nat (List.length xs)).
  { induction xs as [|x xs IH]; intros acc; simpl List.length; simpl fold_left.
    - lia.
    - rewrite IH. lia. }
  rewrite H. lia.
Qed.

(** The durations that enter the average are those of the successful
    executions that have both a start and a finish time. *)
Lemma successful_durations_spec (executions : list JobExecution.t) (d : float) :
  In d (JobDomainService.successful_durations executions) <->
  exists e, In e executions
            /\ e.(JobExecution.status) = SUCCESS
            /\ JobExecution.duration_seconds e = Some d.
Proof.
  unfold JobDomainService.successful_durations. rewrite in_flat_map.
  split; intros (e & Hin & H); exists e; (split; [exact Hin|]).
  - unfold JobExecution.is_successful in H.
    pose proof (ExecutionStatus_eqb_eq e.(JobExecution.status) SUCCESS) as Hs.
    destruct (ExecutionStatus_eqb (JobExecution.status e) SUCCESS);
      [|contradiction].
    destruct (JobExecution.duration_seconds e) as [d'|]; [|contradiction].
    destruct H as [<- | []]. split; [now apply Hs | reflexivity].
  - destruct H as [Hs Hd]. unfold JobExecution.is_successful.
    rewrite Hs, Hd. simpl. tauto.
Qed.

Lemma successful_durations_length (executions : list JobExecution.t) :
  (List.length (JobDomainService.successful_durations executions)
   <= List.length
        (filter (fun e => ExecutionStatus_eqb e.(JobExecution.status) SUCCESS)
           executions))%nat.
Proof.
  unfold JobDomainService.successful_durations.
  induction executions as [|e es IH]; simpl; [lia|].
  unfold JobExecution.is_successful at 1.
  destruct (ExecutionStatus_eqb (JobExecution.status e) SUCCESS); simpl; [|lia].
  destruct (JobExecution.duration_seconds e); simpl; lia.
Qed.


Section Statistics.
Context {job_repository : JobRepositoryInterface}.
Context {execution_repository : JobExecutionRepositoryInterface}.


End Statistics.



(** Scenario D of the specification: ten executions, seven successful and
    three failed. *)
Example scenario_D_success_rate :
  let succeeded :=
    JobExecution.complete_success 0 "ok" 120000000
      (JobExecution.start 60000000 sample_execution) in
  let failed :=
    JobExecution.complete_failure (Some 1) "boom" "exit 1" 120000000
      (JobExecution.start 60000000 sample_execution) in
  let jobs := in_memory_repository [sample_job] in
  let history :=
    in_memory_executions (repeat succeeded 7 ++ repeat failed 3) in
  exists stats : JobStatistics,
    @JobDomainService.get_job_statistics jobs history 1 = inr stats
    /\ stats.(total_executions) = 10
    /\ stats.(successful_executions) = 7
    /\ stats.(failed_executions) = 3
    /\ stats.(success_rate_percent) = 70%float
    /\ stats.(average_duration_seconds) = 60%float.
Proof.
  intros succeeded failed jobs history.
  eexists. split; [reflexivity|].
  repeat split; vm_compute; reflexivity.
Qed.

(** ** CronCalculator: next trigger time *)

Module CronFacts.
Import CronCalculator.

(** *** Bounded search *)




(** *** The calendar is periodic *)





(** Months run from 1 to 12 and days from 1 to 31; February has at most 29
    days. *)
Lemma month_and_day_range (z m d : Z) :
  month_and_day z = (m, d) ->
  1 <= m <= 12 /\ 1 <= d <= 31 /\ (m = 2 -> d <= 29).
Proof.
  unfold month_and_day, days_per_era.
  set (doe := (z + 719468) mod 146097).
  assert (Hdoe : 0 <= doe < 146097) by (apply Z.mod_pos_bound; lia).
  clearbody doe.
  set (yoe := (doe - doe / 1460 + doe / 36524 - doe / 146096) / 365).
  set (doy := doe - (365 * yoe + yoe / 4 - yoe / 100)).
  assert (Hdoy : 0 <= doy <= 365).
  { subst doy yoe. Z.to_euclidean_division_equations. lia. }
  clearbody doy. clear yoe Hdoe doe.
  set (mp := (5 * doy + 2) / 153).
  assert (Hmp : 0 <= mp <= 11 /\ 153 * mp <= 5 * doy + 2 < 153 * mp + 153).
  { subst mp. Z.to_euclidean_division_equations. lia. }
  clearbody mp. intros [= <- <-].
  assert (Hcases : mp = 0 \/ mp = 1 \/ mp = 2 \/ mp = 3 \/ mp = 4 \/ mp = 5
                   \/ mp = 6 \/ mp = 7 \/ mp = 8 \/ mp = 9 \/ mp = 10
                   \/ mp = 11) by lia.
  repeat (destruct Hcases as [-> | Hcases]); try subst mp;
    match goal with
    | |- context [?a <? 10] => destruct (Z.ltb_spec a 10)
    end; Z.to_euclidean_division_equations; lia.
Qed.

Lemma find_from_all_false (p : Z -> bool) (count : nat) :
  (forall i, p i = false) ->
  forall start, find_from p start count = None.
Proof.
  intros Hp. induction count as [|count IH]; intros start; simpl.
  - reflexivity.
  - now rewrite Hp, IH.
Qed.

Lemma february_31_never_matches (z : Z) : day_matches february_31 z = false.
Proof.
  unfold day_matches.
  destruct (month_and_day z) as [m d] eqn:Hmd.
  apply month_and_day_range in Hmd. destruct Hmd as (_ & _ & Hfeb).
  cbn [february_31 months days_of_month days_of_week field_matches existsb].
  destruct (Z.eqb_spec m 2) as [Hm | Hm]; [|reflexivity].
  destruct (Z.eqb_spec d 31) as [Hd | Hd]; [|reflexivity].
  specialize (Hfeb Hm). lia.
Qed.

Lemma february_31_has_no_trigger (base : datetime) :
  next_trigger february_31 base = None.
Proof.
  unfold next_trigger.
  rewrite february_31_never_matches.
  now rewrite (find_from_all_false _ _ february_31_never_matches).
Qed.

(** *** A parsed field allows a value of its range *)








(** *** The next trigger time *)







End CronFacts.




(** A base time that is itself a trigger time is skipped: every minute
    fires, and from 00:01:00 sharp the next run is 00:02:00. *)
Example next_run_skips_matching_base_time :
  @croniter_get_next CronCalculator.croniter "* * * * *" 60000000
  = Some 120000000.
Proof. reflexivity. Qed.

(** The test of the repository: after [mark_as_executed] at some time of
    1970-01-01 the daily job at 02:00 is next due at 02:00 the day after. *)
Example test_mark_as_executed_updates_times :
  let job := Job.set_cron_expression "0 2 * * *" sample_job in
  let execution_time := 36000000000 in
  let after := exec (@Job.mark_as_executed CronCalculator.croniter
                       execution_time) job in
  after.(Job.last_run) = Some execution_time
  /\ after.(Job.next_run) = Some 93600000000
  /\ 36000000000 < 93600000000.
Proof. vm_compute. repeat split. Qed.

(** * Further properties of the entities and the service *)

(** Unfolds the monad of the entity methods. *)
Ltac run_method :=
  unfold exec, eval, when, bind, get, modify, ret, raise; simpl.

(** ** Job: being due *)

(** X1: a job that is due stays due as time passes. *)
Theorem is_due_monotone (j : Job.t) (now later : datetime) :
  Job.is_due now j = true ->
  now <= later ->
  Job.is_due later j = true.
Proof.
  unfold Job.is_due. intros Hdue Hlater.
  apply andb_prop in Hdue. destruct Hdue as [Hactive Hnext].
  rewrite Hactive. simpl.
  destruct (Job.next_run j) as [next|]; [|discriminate].
  apply Z.leb_le in Hnext. apply Z.leb_le. lia.
Qed.

Lemma is_due_monotone_witness :
  Job.is_due 90000000 sample_job = true.
Proof.
  apply (is_due_monotone sample_job 60000000 90000000).
  - reflexivity.
  - lia.
Defined.

(** X2: after [pause], whatever the status was, the job is due at no time,
    its [next_run] is what it was, and a second [pause] changes nothing. *)
Theorem paused_job_is_never_due (now again t : datetime) (j : Job.t) :
  Job.is_due t (Job.pause now j) = false
  /\ (Job.pause now j).(Job.next_run) = j.(Job.next_run)
  /\ Job.pause again (Job.pause now j) = Job.pause now j.
Proof.
  unfold Job.pause, Job.is_due.
  destruct (Job.status j) eqn:Hs; simpl; rewrite ?Hs; simpl; auto.
Qed.

(** ** Job: pause, resume, activate *)

Section JobTransitions.
Context {cron : Croniter}.


(** X4: when the next run cannot be computed, [resume] raises after it has
    made the paused job active: the job is left [ACTIVE] with the [next_run]
    it had before the pause. *)
Theorem resume_failure_leaves_job_active (j : Job.t) (now : datetime) :
  j.(Job.status) = PAUSED ->
  croniter_accepts j.(Job.cron_expression) = false
  \/ croniter_get_next j.(Job.cron_expression) now = None ->
  exists e,
    Job.resume now j
    = (inl e, Job.set_updated_at now (Job.set_status ACTIVE j))
    /\ (exec (Job.resume now) j).(Job.status) = ACTIVE
    /\ (exec (Job.resume now) j).(Job.next_run) = j.(Job.next_run).
Proof.
  intros Hpaused Hfails.
  unfold Job.resume, Job.calculate_next_run. run_method.
  rewrite Hpaused. simpl.
  destruct (croniter_accepts (Job.cron_expression j)) eqn:Haccepts.
  - destruct Hfails as [Hno | Hnone]; [discriminate|].
    rewrite Hnone. simpl. eexists. repeat split.
  - simpl. eexists. repeat split.
Qed.

(** X5: [activate] on a job that is [ACTIVE] or [DELETED], and [resume] on
    a job that is not [PAUSED], return normally and leave the job exactly as
    it was; croniter is not consulted. *)
Theorem activate_and_resume_guards (j : Job.t) (now : datetime) :
  (j.(Job.status) = ACTIVE \/ j.(Job.status) = DELETED ->
   Job.activate now j = (inr tt, j))
  /\ (j.(Job.status) <> PAUSED -> Job.resume now j = (inr tt, j)).
Proof.
  split.
  - intros Hs. unfold Job.activate. run_method.
    destruct Hs as [-> | ->]; reflexivity.
  - intros Hs. unfold Job.resume. run_method.
    destruct (Job.status j); try reflexivity. congruence.
Qed.


(** X7: when croniter returns a next run after the execution time,
    [mark_as_executed] records the execution and the job is not due again
    before that next run, in particular not at the execution time. *)
Theorem mark_as_executed_advances (j : Job.t) (executed_at next : datetime) :
  croniter_accepts j.(Job.cron_expression) = true ->
  croniter_get_next j.(Job.cron_expression) executed_at = Some next ->
  executed_at < next ->
  let after := exec (Job.mark_as_executed executed_at) j in
  eval (Job.mark_as_executed executed_at) j = inr tt
  /\ after.(Job.last_run) = Some executed_at
  /\ after.(Job.next_run) = Some next
  /\ after.(Job.updated_at) = executed_at
  /\ Job.is_due executed_at after = false
  /\ forall t, t < next -> Job.is_due t after = false.
Proof.
  intros Haccepts Hnext Hlater after. subst after.
  unfold Job.mark_as_executed, Job.calculate_next_run. run_method.
  rewrite Haccepts, Hnext. simpl.
  assert (Hnot : forall t, t < next ->
            Job.is_due t
              (Job.set_next_run (Some next)
                 (Job.set_updated_at executed_at
                    (Job.set_last_run (Some executed_at) j))) = false).
  { intros t Ht. unfold Job.is_due. simpl.
    replace (next <=? t) with false by (symmetry; apply Z.leb_gt; lia).
    apply andb_false_r. }
  repeat split; auto.
Qed.

(** X8: when the next run cannot be computed, [mark_as_executed] raises
    after it has stored [last_run] and [updated_at]; [next_run] and the
    status are left, so the job is due exactly when it was before. *)
Theorem mark_as_executed_failure_keeps_next_run (j : Job.t)
    (executed_at : datetime) :
  croniter_accepts j.(Job.cron_expression) = false
  \/ croniter_get_next j.(Job.cron_expression) executed_at = None ->
  let after := exec (Job.mark_as_executed executed_at) j in
  (exists e, eval (Job.mark_as_executed executed_at) j = inl e)
  /\ after = Job.set_updated_at executed_at
               (Job.set_last_run (Some executed_at) j)
  /\ forall t, Job.is_due t after = Job.is_due t j.
Proof.
  intros Hfails after. subst after.
  unfold Job.mark_as_executed, Job.calculate_next_run. run_method.
  destruct (croniter_accepts (Job.cron_expression j)) eqn:Haccepts.
  - destruct Hfails as [Hno | Hnone]; [discriminate|].
    rewrite Hnone. simpl. repeat split. eexists. reflexivity.
  - simpl. repeat split. eexists. reflexivity.
Qed.

(** X9: a job that [Job(...)] returns has an expression croniter accepts
    and a [next_run]: the one given, or else the one computed at
    construction, whatever the status (so an inactive job stored without
    [next_run] has one again when it is built from its row). *)
Theorem init_sets_next_run (now : datetime) (fields j : Job.t) :
  Job.init now fields = inr j ->
  croniter_accepts fields.(Job.cron_expression) = true
  /\ exists next,
       j = Job.set_next_run (Some next) fields
       /\ match fields.(Job.next_run) with
          | Some given => next = given
          | None =>
              croniter_get_next fields.(Job.cron_expression) now = Some next
          end.
Proof.
  unfold Job.init, Job.post_init, Job.validate_cron_expression,
    Job.calculate_next_run.
  run_method.
  destruct (croniter_accepts (Job.cron_expression fields)) eqn:Haccepts;
    simpl; [|discriminate].
  destruct (Job.next_run fields) as [given|] eqn:Hgiven; simpl.
  - intros [= <-]. split; [reflexivity|]. exists given. split; [|reflexivity].
    destruct fields; simpl in *; subst; reflexivity.
  - rewrite Haccepts.
    destruct (croniter_get_next (Job.cron_expression fields) now)
      as [next|] eqn:Hnext; simpl; [|discriminate].
    intros [= <-]. split; [reflexivity|]. exists next. split; reflexivity.
Qed.

(** X10: [Job(...)] raises the invalid-expression error exactly when
    croniter rejects the expression, before anything else is looked at. *)
Theorem init_rejects_invalid_expression (now : datetime) (fields : Job.t)
    (expr : string) :
  Job.init now fields = inl (InvalidCronExpression expr) <->
  croniter_accepts fields.(Job.cron_expression) = false
  /\ expr = fields.(Job.cron_expression).
Proof.
  unfold Job.init, Job.post_init, Job.validate_cron_expression,
    Job.calculate_next_run.
  run_method.
  destruct (croniter_accepts (Job.cron_expression fields)) eqn:Haccepts; simpl.
  - split; [|intros [H _]; discriminate].
    destruct (Job.next_run fields); simpl; [discriminate|].
    rewrite Haccepts.
    destruct (croniter_get_next (Job.cron_expression fields) now); simpl;
      discriminate.
  - split.
    + intros [= <-]. auto.
    + intros [_ ->]. reflexivity.
Qed.

End JobTransitions.


Lemma resume_failure_leaves_job_active_witness :
  let j := Job.set_status PAUSED
             (Job.set_cron_expression "invalid cron" sample_job) in
  exists e,
    @Job.resume CronCalculator.croniter 600000000 j
    = (inl e, Job.set_updated_at 600000000 (Job.set_status ACTIVE j))
    /\ (exec (@Job.resume CronCalculator.croniter 600000000) j).(Job.status)
       = ACTIVE
    /\ (exec (@Job.resume CronCalculator.croniter 600000000) j).(Job.next_run)
       = j.(Job.next_run).
Proof.
  intro j.
  apply (@resume_failure_leaves_job_active CronCalculator.croniter j 600000000).
  - reflexivity.
  - left. reflexivity.
Defined.

Lemma activate_and_resume_guards_witness :
  @Job.activate CronCalculator.croniter 600000000 sample_job
  = (inr tt, sample_job).
Proof.
  apply (proj1 (@activate_and_resume_guards CronCalculator.croniter
                  sample_job 600000000)).
  left. reflexivity.
Defined.


Lemma mark_as_executed_advances_witness :
  let after := exec (@Job.mark_as_executed CronCalculator.croniter 60000000)
                 sample_job in
  eval (@Job.mark_as_executed CronCalculator.croniter 60000000) sample_job
  = inr tt
  /\ after.(Job.last_run) = Some 60000000
  /\ after.(Job.next_run) = Some 120000000
  /\ after.(Job.updated_at) = 60000000
  /\ Job.is_due 60000000 after = false
  /\ forall t, t < 120000000 -> Job.is_due t after = false.
Proof.
  apply (@mark_as_executed_advances CronCalculator.croniter sample_job
           60000000 120000000).
  - reflexivity.
  - reflexivity.
  - lia.
Defined.

Lemma mark_as_executed_failure_keeps_next_run_witness :
  let j := Job.set_cron_expression "0 0 31 2 *" sample_job in
  let after := exec (@Job.mark_as_executed CronCalculator.croniter 60000000) j in
  (exists e,
     eval (@Job.mark_as_executed CronCalculator.croniter 60000000) j = inl e)
  /\ after = Job.set_updated_at 60000000 (Job.set_last_run (Some 60000000) j)
  /\ forall t, Job.is_due t after = Job.is_due t j.
Proof.
  intro j.
  apply (@mark_as_executed_failure_keeps_next_run CronCalculator.croniter
           j 60000000).
  right.
  cbn [croniter_get_next CronCalculator.croniter j Job.cron_expression
       Job.set_cron_expression].
  change (CronCalculator.parse "0 0 31 2 *")
    with (Some CronCalculator.february_31).
  apply CronFacts.february_31_has_no_trigger.
Defined.

Lemma init_sets_next_run_witness :
  @croniter_accepts CronCalculator.croniter
    (Job.set_next_run None sample_job).(Job.cron_expression) = true
  /\ exists next,
       sample_job = Job.set_next_run (Some next)
                      (Job.set_next_run None sample_job)
       /\ @croniter_get_next CronCalculator.croniter
            (Job.set_next_run None sample_job).(Job.cron_expression) 0
          = Some next.
Proof.
  apply (@init_sets_next_run CronCalculator.croniter 0
           (Job.set_next_run None sample_job) sample_job).
  reflexivity.
Defined.

(** ** Dictionaries *)

Section Dict.
Context {V : Type}.
Implicit Types (d : list (string * V)) (key other : string) (value : V).

Lemma dict_get_set_same key value d :
  dict_get key (dict_set key value d) = Some value.
Proof.
  induction d as [|[k v] rest IH]; simpl.
  - now rewrite String.eqb_refl.
  - destruct (String.eqb key k) eqn:Hk; simpl; rewrite Hk; auto.
Qed.

Lemma dict_get_set_other key other value d :
  other <> key ->
  dict_get other (dict_set key value d) = dict_get other d.
Proof.
  intros Hne. induction d as [|[k v] rest IH]; simpl.
  - apply String.eqb_neq in Hne. now rewrite Hne.
  - destruct (String.eqb key k) eqn:Hk; simpl.
    + apply String.eqb_eq in Hk. subst k.
      apply String.eqb_neq in Hne. now rewrite Hne.
    + destruct (String.eqb other k); auto.
Qed.

Lemma dict_get_del_same key d : dict_get key (dict_del key d) = None.
Proof.
  unfold dict_del. induction d as [|[k v] rest IH]; simpl; [reflexivity|].
  destruct (String.eqb key k) eqn:Hk; simpl; [exact IH|].
  now rewrite Hk.
Qed.

Lemma dict_get_del_other key other d :
  other <> key ->
  dict_get other (dict_del key d) = dict_get other d.
Proof.
  intros Hne. unfold dict_del.
  induction d as [|[k v] rest IH]; simpl; [reflexivity|].
  destruct (String.eqb key k) eqn:Hk; simpl.
  - apply String.eqb_eq in Hk. subst k.
    apply String.eqb_neq in Hne. now rewrite Hne.
  - now rewrite IH.
Qed.

Lemma dict_mem_get key d :
  dict_mem key d = false <-> dict_get key d = None.
Proof.
  unfold dict_mem. induction d as [|[k v] rest IH]; simpl; [tauto|].
  destruct (String.eqb key k); simpl; [split; discriminate | exact IH].
Qed.

Lemma dict_del_missing key d : dict_mem key d = false -> dict_del key d = d.
Proof.
  unfold dict_mem, dict_del.
  induction d as [|[k v] rest IH]; simpl; [reflexivity|].
  destruct (String.eqb key k); simpl; [discriminate|].
  intros H. now rewrite IH.
Qed.

Lemma dict_del_set_fresh key value d :
  dict_mem key d = false -> dict_del key (dict_set key value d) = d.
Proof.
  unfold dict_mem, dict_del.
  induction d as [|[k v] rest IH]; simpl.
  - now rewrite String.eqb_refl.
  - destruct (String.eqb key k) eqn:Hk; simpl; [discriminate|].
    intros H. rewrite Hk. simpl. now rewrite IH.
Qed.

Lemma dict_set_keys key value d other :
  In other (map fst (dict_set key value d)) <->
  other = key \/ In other (map fst d).
Proof.
  induction d as [|[k v] rest IH]; simpl.
  - split; [intros [<- | []]; auto | intros [-> | []]; auto].
  - destruct (String.eqb key k) eqn:Hk; simpl.
    + apply String.eqb_eq in Hk. subst k. split; [tauto|].
      intros [-> | H]; tauto.
    + rewrite IH. tauto.
Qed.

Lemma dict_set_unique_keys key value d :
  NoDup (map fst d) -> NoDup (map fst (dict_set key value d)).
Proof.
  induction d as [|[k v] rest IH]; simpl; intros Hnd.
  - repeat constructor. simpl. tauto.
  - inversion Hnd as [|? ? Hnotin Hrest]; subst.
    destruct (String.eqb key k) eqn:Hk; simpl.
    + constructor; assumption.
    + constructor; [|auto].
      rewrite dict_set_keys. intros [-> | Hin]; [|contradiction].
      now rewrite String.eqb_refl in Hk.
Qed.

Lemma dict_del_unique_keys key d :
  NoDup (map fst d) -> NoDup (map fst (dict_del key d)).
Proof.
  unfold dict_del. induction d as [|[k v] rest IH]; simpl; intros Hnd.
  - constructor.
  - inversion Hnd as [|? ? Hnotin Hrest]; subst.
    destruct (String.eqb key k); simpl; [auto|].
    constructor; [|auto].
    intros Hin. apply Hnotin.
    apply in_map_iff in Hin. destruct Hin as (entry & Hfst & Hin).
    apply filter_In in Hin. apply in_map_iff. exists entry. tauto.
Qed.

End Dict.

(** ** Job: environment variables and tags *)

(** X11: after [set_environment_variable(key, value)] the key is bound to
    the value and every other key is bound as before; the keys stay
    distinct. *)
Theorem set_environment_variable_binds (now : datetime) (key value : string)
    (j : Job.t) :
  let j' := Job.set_environment_variable now key value j in
  dict_get key j'.(Job.environment_variables) = Some value
  /\ (forall other, other <> key ->
        dict_get other j'.(Job.environment_variables)
        = dict_get other j.(Job.environment_variables))
  /\ (NoDup (map fst j.(Job.environment_variables)) ->
      NoDup (map fst j'.(Job.environment_variables))).
Proof.
  simpl. split; [apply dict_get_set_same|]. split.
  - intros other Hne. now apply dict_get_set_other.
  - apply dict_set_unique_keys.
Qed.

Lemma set_environment_variable_binds_witness :
  let j' := Job.set_environment_variable 5 "DEBUG" "true"
              (Job.set_environment_variable 4 "DATABASE_URL"
                 "mysql://localhost" sample_job) in
  dict_get "DATABASE_URL" j'.(Job.environment_variables)
  = dict_get "DATABASE_URL"
      (Job.set_environment_variable 4 "DATABASE_URL" "mysql://localhost"
         sample_job).(Job.environment_variables).
Proof.
  intro j'.
  apply (proj1 (proj2 (set_environment_variable_binds 5 "DEBUG" "true"
                         (Job.set_environment_variable 4 "DATABASE_URL"
                            "mysql://localhost" sample_job)))).
  discriminate.
Defined.

(** X12: [remove_environment_variable(key)] unbinds the key and leaves the
    other keys bound as before; when the key is not bound the job is left
    exactly as it was, [updated_at] included; removing a variable that was
    just set on a job that did not have it gives back the variables the job
    had. *)
Theorem remove_environment_variable_unbinds (now : datetime) (key : string)
    (j : Job.t) :
  let j' := Job.remove_environment_variable now key j in
  dict_get key j'.(Job.environment_variables) = None
  /\ (forall other, other <> key ->
        dict_get other j'.(Job.environment_variables)
        = dict_get other j.(Job.environment_variables))
  /\ (dict_get key j.(Job.environment_variables) = None -> j' = j)
  /\ (dict_get key j.(Job.environment_variables) = None ->
      forall set_at value,
        (Job.remove_environment_variable now key
           (Job.set_environment_variable set_at key value j)
        ).(Job.environment_variables)
        = j.(Job.environment_variables)).
Proof.
  unfold Job.remove_environment_variable.
  destruct (dict_mem key (Job.environment_variables j)) eqn:Hmem; simpl.
  - split; [apply dict_get_del_same|]. split.
    + intros other Hne. now apply dict_get_del_other.
    + split; intros Hnone; apply dict_mem_get in Hnone; congruence.
  - pose proof (proj1 (dict_mem_get _ _) Hmem) as Hnone.
    split; [exact Hnone|]. split; [reflexivity|]. split; [reflexivity|].
    intros _ set_at value.
    assert (Hset : dict_mem key (dict_set key value (Job.environment_variables j))
                   = true).
    { destruct (dict_mem key (dict_set key value (Job.environment_variables j)))
        eqn:Hm; [reflexivity|].
      apply dict_mem_get in Hm. rewrite dict_get_set_same in Hm.
      discriminate. }
    simpl. rewrite Hset. simpl. now apply dict_del_set_fresh.
Qed.

Lemma remove_environment_variable_unbinds_witness :
  Job.remove_environment_variable 5 "DEBUG" sample_job = sample_job.
Proof.
  apply (proj1 (proj2 (proj2 (remove_environment_variable_unbinds
                                5 "DEBUG" sample_job)))).
  reflexivity.
Defined.

(** The test of the repository: two variables set, one removed. *)
Example test_set_environment_variables :
  let j := Job.set_environment_variable 2 "DEBUG" "true"
             (Job.set_environment_variable 1 "DATABASE_URL"
                "mysql://localhost" sample_job) in
  dict_get "DATABASE_URL" j.(Job.environment_variables)
  = Some "mysql://localhost"
  /\ dict_get "DEBUG" j.(Job.environment_variables) = Some "true"
  /\ dict_mem "DEBUG"
       (Job.remove_environment_variable 3 "DEBUG" j).(Job.environment_variables)
     = false
  /\ dict_mem "DATABASE_URL"
       (Job.remove_environment_variable 3 "DEBUG" j).(Job.environment_variables)
     = true.
Proof. repeat split. Qed.

Lemma list_remove_appended (x : string) (xs : list string) :
  ~ In x xs -> list_remove x (xs ++ [x]) = xs.
Proof.
  induction xs as [|y ys IH]; simpl; intros Hnotin.
  - now rewrite String.eqb_refl.
  - destruct (String.eqb x y) eqn:Hxy.
    + apply String.eqb_eq in Hxy. subst. tauto.
    + rewrite IH; tauto.
Qed.

Lemma list_remove_drops (x : string) (xs : list string) :
  NoDup xs -> ~ In x (list_remove x xs).
Proof.
  induction 1 as [|y ys Hy Hys IH]; simpl; [tauto|].
  destruct (String.eqb x y) eqn:Hxy.
  - apply String.eqb_eq in Hxy. now subst.
  - simpl. intros [-> | Hin]; [|contradiction].
    now rewrite String.eqb_refl in Hxy.
Qed.

Lemma list_remove_keeps (x other : string) (xs : list string) :
  other <> x -> In other xs -> In other (list_remove x xs).
Proof.
  intros Hne. induction xs as [|y ys IH]; simpl; [tauto|].
  destruct (String.eqb x y) eqn:Hxy.
  - apply String.eqb_eq in Hxy. subst y. intros [-> | H]; tauto.
  - simpl. tauto.
Qed.

(** X13: [remove_tag] of a tag the job does not have leaves the job exactly
    as it was; on duplicate-free tags it removes the tag and keeps every
    other tag; and it undoes an [add_tag] of a tag the job did not have. *)
Theorem remove_tag_removes (now : datetime) (tag : string) (j : Job.t) :
  (~ In tag j.(Job.tags) -> Job.remove_tag now tag j = j)
  /\ (NoDup j.(Job.tags) -> ~ In tag (Job.remove_tag now tag j).(Job.tags))
  /\ (forall other, other <> tag ->
        (In other (Job.remove_tag now tag j).(Job.tags)
         <-> In other j.(Job.tags)))
  /\ (~ In tag j.(Job.tags) ->
      forall added_at,
        (Job.remove_tag now tag (Job.add_tag added_at tag j)).(Job.tags)
        = j.(Job.tags)).
Proof.
  unfold Job.remove_tag.
  destruct (str_in tag (Job.tags j)) eqn:Hin; simpl.
  - pose proof (proj1 (str_in_In _ _) Hin) as Hpresent.
    split; [tauto|]. split; [apply list_remove_drops|]. split; [|tauto].
    intros other Hne. split;
      [apply list_remove_subset | now apply list_remove_keeps].
  - assert (Habsent : ~ In tag (Job.tags j)).
    { intros H. apply str_in_In in H. congruence. }
    split; [reflexivity|]. split; [tauto|]. split; [tauto|].
    intros _ added_at. unfold Job.add_tag. rewrite Hin. simpl.
    replace (str_in tag (Job.tags j ++ [tag])) with true.
    + simpl. now apply list_remove_appended.
    + symmetry. apply str_in_In. apply in_or_app. right. simpl. tauto.
Qed.

Lemma remove_tag_removes_witness :
  ~ In "backup"
      (Job.remove_tag 3 "backup"
         (Job.add_tag 2 "important" (Job.add_tag 1 "backup" sample_job))
      ).(Job.tags).
Proof.
  apply (proj1 (proj2 (remove_tag_removes 3 "backup"
                         (Job.add_tag 2 "important"
                            (Job.add_tag 1 "backup" sample_job))))).
  simpl. repeat constructor; simpl; intuition discriminate.
Defined.

(** ** JobExecution: metadata *)

(** X14: [get_metadata] returns what [set_metadata] stored under the key,
    the default for a key that was never set, and is not affected by
    [set_metadata] on another key; [set_metadata] leaves the status and the
    retry count alone. *)
Theorem metadata_round_trip (key value default : string)
    (e : JobExecution.t) :
  JobExecution.get_metadata key default (JobExecution.set_metadata key value e)
  = value
  /\ (forall other, other <> key ->
        JobExecution.get_metadata other default
          (JobExecution.set_metadata key value e)
        = JobExecution.get_metadata other default e)
  /\ (dict_get key e.(JobExecution.execution_metadata) = None ->
      JobExecution.get_metadata key default e = default)
  /\ (JobExecution.set_metadata key value e).(JobExecution.status)
     = e.(JobExecution.status)
  /\ (JobExecution.set_metadata key value e).(JobExecution.retry_count)
     = e.(JobExecution.retry_count).
Proof.
  unfold JobExecution.get_metadata, JobExecution.set_metadata. simpl.
  rewrite dict_get_set_same. split; [reflexivity|]. split.
  - intros other Hne. now rewrite dict_get_set_other.
  - split; [intros ->; reflexivity | split; reflexivity].
Qed.

Lemma metadata_round_trip_witness :
  JobExecution.get_metadata "host" "unknown" sample_execution = "unknown".
Proof.
  apply (proj1 (proj2 (proj2 (metadata_round_trip "host" "worker-1" "unknown"
                                sample_execution)))).
  reflexivity.
Defined.

(** ** JobExecution: timing and retries *)

(** X15: an execution started at [t1] and finished at [t2], by any of the
    four completing operations, lasted [(t2 - t1) / 10**6] seconds; one that
    is cancelled or times out without having been started has no
    duration. *)
Theorem duration_of_finished_execution (e : JobExecution.t)
    (t1 t2 : datetime) (code : Z) (exit_code : option Z)
    (out err msg : string) :
  let started := JobExecution.start t1 e in
  let lasted := Some (int_truediv (t2 - t1) microseconds_per_second) in
  JobExecution.duration_seconds
    (JobExecution.complete_success code out t2 started) = lasted
  /\ JobExecution.duration_seconds
       (JobExecution.complete_failure exit_code err msg t2 started) = lasted
  /\ JobExecution.duration_seconds (JobExecution.timeout msg t2 started)
     = lasted
  /\ JobExecution.duration_seconds (JobExecution.cancel msg t2 started)
     = lasted
  /\ (e.(JobExecution.started_at) = None ->
      JobExecution.duration_seconds (JobExecution.cancel msg t2 e) = None
      /\ JobExecution.duration_seconds (JobExecution.timeout msg t2 e) = None).
Proof.
  unfold JobExecution.duration_seconds. simpl.
  repeat split; try reflexivity; intros; simpl;
    match goal with H : _ = None |- _ => now rewrite H end.
Qed.

Lemma duration_of_finished_execution_witness :
  JobExecution.duration_seconds
    (JobExecution.cancel "stop" 120000000 sample_execution) = None.
Proof.
  apply (proj1 (proj2 (proj2 (proj2 (proj2
           (duration_of_finished_execution sample_execution 60000000
              120000000 0 None "" "" "stop")))) eq_refl)).
Defined.

Lemma apply_retry_count (op : JobExecution.operation) (e : JobExecution.t) :
  (JobExecution.apply op e).(JobExecution.retry_count)
  = match op with
    | JobExecution.PrepareRetry =>
        if JobExecution.can_retry e
        then e.(JobExecution.retry_count) + 1
        else e.(JobExecution.retry_count)
    | _ => e.(JobExecution.retry_count)
    end.
Proof.
  destruct op; try reflexivity.
  simpl. unfold JobExecution.prepare_retry.
  destruct (JobExecution.can_retry e); reflexivity.
Qed.

(** X16: over every sequence of operations the retry count never decreases,
    and it grows by at most the number of [prepare_retry] calls in the
    sequence. *)
Theorem retry_count_never_decreases (ops : list JobExecution.operation)
    (e : JobExecution.t) :
  let final := fold_left (fun x op => JobExecution.apply op x) ops e in
  let retries :=
    List.length
      (filter (fun op => match op with
                         | JobExecution.PrepareRetry => true
                         | _ => false
                         end) ops) in
  e.(JobExecution.retry_count) <= final.(JobExecution.retry_count)
  /\ final.(JobExecution.retry_count)
     <= e.(JobExecution.retry_count) + Z.of_nat retries.
Proof.
  revert e. induction ops as [|op ops IH]; intros e.
  - simpl. lia.
  - cbn [fold_left filter].
    specialize (IH (JobExecution.apply op e)). cbv zeta in IH.
    rewrite apply_retry_count in IH.
    destruct op; cbn [List.length] in *; try lia.
    destruct (JobExecution.can_retry e); lia.
Qed.

(** X17: [prepare_retry] counts an attempt once: a second call right after
    the first changes nothing.  It keeps the output and the error message
    of the failed attempt, and the execution it prepares is no longer
    completed and has no duration. *)
Theorem prepare_retry_once (e : JobExecution.t) :
  let e' := JobExecution.prepare_retry e in
  JobExecution.prepare_retry e' = e'
  /\ e'.(JobExecution.stdout) = e.(JobExecution.stdout)
  /\ e'.(JobExecution.stderr) = e.(JobExecution.stderr)
  /\ e'.(JobExecution.error_message) = e.(JobExecution.error_message)
  /\ (JobExecution.can_retry e = true ->
      e'.(JobExecution.retry_count) = e.(JobExecution.retry_count) + 1
      /\ JobExecution.is_completed e' = false
      /\ JobExecution.duration_seconds e' = None).
Proof.
  unfold JobExecution.prepare_retry.
  destruct (JobExecution.can_retry e) eqn:Hcan; simpl.
  - repeat split.
  - rewrite Hcan. repeat split; discriminate.
Qed.

Lemma prepare_retry_once_witness :
  let failed :=
    JobExecution.complete_failure (Some 1) "boom" "exit 1" 120000000
      (JobExecution.start 60000000 sample_execution) in
  let e' := JobExecution.prepare_retry failed in
  e'.(JobExecution.retry_count) = failed.(JobExecution.retry_count) + 1
  /\ JobExecution.is_completed e' = false
  /\ JobExecution.duration_seconds e' = None.
Proof.
  intros failed e'.
  apply (proj2 (proj2 (proj2 (proj2 (prepare_retry_once failed))))).
  reflexivity.
Defined.

(** ** Retry policy: further properties *)

(** X18: a retry that [should_retry_execution] allows keeps the retry count
    within [max_retries]: after [prepare_retry] the count is one higher, at
    most [max_retries], and the execution, now [RETRYING], is not retried
    again before it has failed again. *)
Theorem allowed_retry_stays_within_limit (e : JobExecution.t) (job : Job.t) :
  JobDomainService.should_retry_execution e job = true ->
  let e' := JobExecution.prepare_retry e in
  e'.(JobExecution.status) = RETRYING
  /\ e'.(JobExecution.retry_count) = e.(JobExecution.retry_count) + 1
  /\ e'.(JobExecution.retry_count) <= job.(Job.max_retries)
  /\ JobDomainService.should_retry_execution e' job = false.
Proof.
  unfold JobDomainService.should_retry_execution.
  destruct (Z.leb_spec job.(Job.max_retries) e.(JobExecution.retry_count))
    as [Hle | Hlt]; [discriminate|].
  destruct (JobExecution.can_retry e) eqn:Hcan; [|discriminate].
  intros _. unfold JobExecution.prepare_retry. rewrite Hcan. simpl.
  repeat split; try lia.
  destruct (job.(Job.max_retries) <=? e.(JobExecution.retry_count) + 1);
    reflexivity.
Qed.

Lemma allowed_retry_stays_within_limit_witness :
  let job := Job.set_max_retries 2 sample_job in
  let failed :=
    JobExecution.set_retry_count 1
      (JobExecution.set_status FAILED sample_execution) in
  let e' := JobExecution.prepare_retry failed in
  e'.(JobExecution.status) = RETRYING
  /\ e'.(JobExecution.retry_count) = failed.(JobExecution.retry_count) + 1
  /\ e'.(JobExecution.retry_count) <= job.(Job.max_retries)
  /\ JobDomainService.should_retry_execution e' job = false.
Proof.
  intros job failed.
  apply (allowed_retry_stays_within_limit failed job).
  reflexivity.
Defined.

(** X19: for a non-negative base delay the retry delay never shrinks as
    the retry count grows, capped or not. *)
Theorem retry_delay_monotone (e1 e2 : JobExecution.t) (job : Job.t) :
  0 <= job.(Job.retry_delay_seconds) ->
  0 <= e1.(JobExecution.retry_count) <= e2.(JobExecution.retry_count) ->
  JobDomainService.retry_delay e1 job <= JobDomainService.retry_delay e2 job.
Proof.
  unfold JobDomainService.retry_delay. intros Hd Hr.
  assert (2 ^ e1.(JobExecution.retry_count) <= 2 ^ e2.(JobExecution.retry_count))
    by (apply Z.pow_le_mono_r; lia).
  assert (0 < 2 ^ e1.(JobExecution.retry_count))
    by (apply Z.pow_pos_nonneg; lia).
  apply Z.min_le_compat_r. nia.
Qed.

Lemma retry_delay_monotone_witness :
  let job := Job.set_retry_delay_seconds 0 sample_job in
  JobDomainService.retry_delay
    (JobExecution.set_retry_count 3 sample_execution) job
  <= JobDomainService.retry_delay
       (JobExecution.set_retry_count 20 sample_execution) job.
Proof.
  intro job.
  apply (retry_delay_monotone
           (JobExecution.set_retry_count 3 sample_execution)
           (JobExecution.set_retry_count 20 sample_execution) job);
    simpl; lia.
Defined.

(** X20: with a base delay of at least one second the cap is reached from
    the twelfth retry on: every later retry waits exactly one hour. *)
Theorem retry_delay_saturates (e : JobExecution.t) (job : Job.t) :
  1 <= job.(Job.retry_delay_seconds) ->
  12 <= e.(JobExecution.retry_count) ->
  JobDomainService.retry_delay e job = 3600.
Proof.
  unfold JobDomainService.retry_delay. intros Hd Hr.
  assert (2 ^ 12 <= 2 ^ e.(JobExecution.retry_count))
    by (apply Z.pow_le_mono_r; lia).
  change (2 ^ 12) with 4096 in *.
  apply Z.min_r. nia.
Qed.

Lemma retry_delay_saturates_witness :
  JobDomainService.retry_delay
    (JobExecution.set_retry_count 12 sample_execution)
    (Job.set_retry_delay_seconds 1 sample_job) = 3600.
Proof.
  apply (retry_delay_saturates
           (JobExecution.set_retry_count 12 sample_execution)
           (Job.set_retry_delay_seconds 1 sample_job)); simpl; lia.
Defined.

(** ** Scheduling service: update, further properties *)

Lemma same_fixed_fields_refl (j : Job.t) : same_fixed_fields j j.
Proof. unfold same_fixed_fields. repeat split. Qed.

Lemma same_fixed_fields_trans (a b c : Job.t) :
  same_fixed_fields a b -> same_fixed_fields b c -> same_fixed_fields a c.
Proof.
  unfold same_fixed_fields.
  intros (H1 & H2 & H3 & H4 & H5 & H6 & H7) (G1 & G2 & G3 & G4 & G5 & G6 & G7).
  repeat split; congruence.
Qed.

Lemma keeps_ret {A} (a : A) : keeps_fixed_fields (ret a).
Proof. intros j. apply same_fixed_fields_refl. Qed.

Lemma keeps_raise {A} (e : exn) : keeps_fixed_fields (@raise Job.t A e).
Proof. intros j. apply same_fixed_fields_refl. Qed.

Lemma keeps_get : keeps_fixed_fields (@get Job.t).
Proof. intros j. apply same_fixed_fields_refl. Qed.

Lemma keeps_modify (f : Job.t -> Job.t) :
  (forall j, same_fixed_fields j (f j)) -> keeps_fixed_fields (modify f).
Proof. intros Hf j. apply Hf. Qed.

Lemma keeps_bind {A B} (m : M Job.t A) (k : A -> M Job.t B) :
  keeps_fixed_fields m ->
  (forall a, keeps_fixed_fields (k a)) ->
  keeps_fixed_fields (bind m k).
Proof.
  intros Hm Hk j. unfold bind. specialize (Hm j).
  destruct (m j) as [[e | a] j']; simpl in *; [exact Hm|].
  eapply same_fixed_fields_trans; [exact Hm | apply Hk].
Qed.

(** A setter of a field outside [same_fixed_fields] keeps them. *)
Ltac keeps_setter :=
  apply keeps_modify; intros ?; unfold same_fixed_fields; repeat split.

Section UpdateFrame.
Context {cron : Croniter}.
Context {job_repository : JobRepositoryInterface}.

Lemma keeps_validate : keeps_fixed_fields Job.validate_cron_expression.
Proof.
  unfold Job.validate_cron_expression.
  apply keeps_bind; [apply keeps_get|]. intros self.
  destruct (croniter_accepts (Job.cron_expression self));
    [apply keeps_ret | apply keeps_raise].
Qed.

Lemma keeps_calculate_next_run (base : datetime) :
  keeps_fixed_fields (Job.calculate_next_run base).
Proof.
  unfold Job.calculate_next_run.
  apply keeps_bind; [apply keeps_get|]. intros self.
  destruct (croniter_accepts (Job.cron_expression self));
    [|apply keeps_raise].
  destruct (croniter_get_next (Job.cron_expression self) base);
    [|apply keeps_raise].
  apply keeps_bind; [keeps_setter | intros; apply keeps_ret].
Qed.

Lemma keeps_update_fields (now : datetime)
    (name cron_expression command description : option string)
    (timeout_seconds max_retries retry_delay_seconds : option Z) :
  keeps_fixed_fields
    (JobDomainService.update_fields now name cron_expression command
       description timeout_seconds max_retries retry_delay_seconds).
Proof.
  unfold JobDomainService.update_fields.
  apply keeps_bind; [apply keeps_get|]. intros job.
  apply keeps_bind; [|intros _].
  { destruct name as [name|]; [|apply keeps_ret].
    unfold when. destruct (negb _); [|apply keeps_ret].
    apply keeps_bind.
    - unfold JobDomainService.await.
      destruct (get_by_name name); [apply keeps_raise | apply keeps_ret].
    - intros [existing|]; [apply keeps_raise | keeps_setter]. }
  apply keeps_bind; [|intros _].
  { destruct cron_expression as [expr|]; [|apply keeps_ret].
    apply keeps_bind; [keeps_setter | intros _].
    apply keeps_bind; [apply keeps_validate | intros _].
    apply keeps_bind; [apply keeps_calculate_next_run | intros _].
    apply keeps_ret. }
  apply keeps_bind; [|intros _].
  { destruct command; [keeps_setter | apply keeps_ret]. }
  apply keeps_bind; [|intros _].
  { destruct description; [keeps_setter | apply keeps_ret]. }
  apply keeps_bind; [|intros _].
  { destruct timeout_seconds as [t|]; [|apply keeps_ret].
    destruct (t <=? 0); [apply keeps_raise | keeps_setter]. }
  apply keeps_bind; [|intros _].
  { destruct max_retries as [m|]; [|apply keeps_ret].
    destruct (m <? 0); [apply keeps_raise | keeps_setter]. }
  apply keeps_bind; [|intros _].
  { destruct retry_delay_seconds as [r|]; [|apply keeps_ret].
    destruct (r <? 0); [apply keeps_raise | keeps_setter]. }
  keeps_setter.
Qed.

(** X21: whatever its arguments and whatever it returns or raises,
    [update_job] leaves the status, [created_at], [last_run], the
    environment variables, the tags, the id and the uuid of the fetched job
    as they were. *)
Theorem update_job_keeps_fixed_fields (now : datetime) (job_id : Z)
    (job : Job.t) (name cron_expression command description : option string)
    (timeout_seconds max_retries retry_delay_seconds : option Z) :
  get_by_id job_id = inr (Some job) ->
  exists outcome job',
    JobDomainService.update_job now job_id name cron_expression command
      description timeout_seconds max_retries retry_delay_seconds
    = (outcome, Some job')
    /\ same_fixed_fields job job'.
Proof.
  intros Hget. unfold JobDomainService.update_job. rewrite Hget.
  pose proof (keeps_update_fields now name cron_expression command
                description timeout_seconds max_retries retry_delay_seconds
                job) as Hkeeps.
  destruct (JobDomainService.update_fields now name cron_expression command
              description timeout_seconds max_retries retry_delay_seconds job)
    as [[e | u] job']; simpl in Hkeeps; eauto.
Qed.

(** X22: an update that names the job by the name it already has does not
    ask the repository whether the name is taken: with no other argument it
    only sets [updated_at] and stores the job. *)
Theorem update_job_with_own_name (now : datetime) (job_id : Z) (job : Job.t) :
  get_by_id job_id = inr (Some job) ->
  JobDomainService.update_job now job_id (Some job.(Job.name))
    None None None None None None
  = (update (Job.set_updated_at now job), Some (Job.set_updated_at now job)).
Proof.
  intros Hget. unfold JobDomainService.update_job. rewrite Hget.
  unfold JobDomainService.update_fields. run_method.
  rewrite String.eqb_refl. reflexivity.
Qed.

(** X23: an update to a new name that the repository cannot grant (the
    lookup raises, or finds a job of that name) raises before anything is
    assigned: the fetched job is left exactly as it was, whatever the other
    arguments. *)
Theorem update_job_name_taken (now : datetime) (job_id : Z) (job : Job.t)
    (name : string) (cron_expression command description : option string)
    (timeout_seconds max_retries retry_delay_seconds : option Z) :
  get_by_id job_id = inr (Some job) ->
  name <> job.(Job.name) ->
  match get_by_name name with
  | inl e =>
      JobDomainService.update_job now job_id (Some name) cron_expression
        command description timeout_seconds max_retries retry_delay_seconds
      = (inl e, Some job)
  | inr (Some _) =>
      JobDomainService.update_job now job_id (Some name) cron_expression
        command description timeout_seconds max_retries retry_delay_seconds
      = (inl (JobNameExists name), Some job)
  | inr None => True
  end.
Proof.
  intros Hget Hne. unfold JobDomainService.update_job. rewrite Hget.
  unfold JobDomainService.update_fields, JobDomainService.await. run_method.
  apply String.eqb_neq in Hne. rewrite Hne. simpl.
  destruct (get_by_name name) as [e | [existing|]]; simpl; auto.
Qed.

(** X24: a non-positive timeout is rejected after the new command and
    description were assigned: the call raises, the repository's [update] is
    not reached, [timeout_seconds], [max_retries], [retry_delay_seconds] and
    [updated_at] are as before, and the command and description are the new
    ones. *)
Theorem update_job_timeout_rejected (now : datetime) (job_id : Z)
    (job : Job.t) (command description : option string) (timeout : Z)
    (max_retries retry_delay_seconds : option Z) :
  get_by_id job_id = inr (Some job) ->
  timeout <= 0 ->
  let with_command :=
    match command with
    | Some c => Job.set_command c job
    | None => job
    end in
  let with_description :=
    match description with
    | Some d => Job.set_description d with_command
    | None => with_command
    end in
  JobDomainService.update_job now job_id None None command description
    (Some timeout) max_retries retry_delay_seconds
  = (inl TimeoutNotPositive, Some with_description).
Proof.
  intros Hget Hbad. unfold JobDomainService.update_job. rewrite Hget.
  unfold JobDomainService.update_fields. run_method.
  apply Z.leb_le in Hbad.
  destruct command, description; simpl; rewrite Hbad; reflexivity.
Qed.

(** X25: the three numeric checks run in the order timeout, retries, delay,
    each after the assignments before it: a negative retry delay raises
    with the new, valid timeout and maximum of retries already stored in the
    fetched job. *)
Theorem update_job_retry_delay_rejected (now : datetime) (job_id : Z)
    (job : Job.t) (timeout max_retries retry_delay : Z) :
  get_by_id job_id = inr (Some job) ->
  0 < timeout -> 0 <= max_retries -> retry_delay < 0 ->
  JobDomainService.update_job now job_id None None None None
    (Some timeout) (Some max_retries) (Some retry_delay)
  = (inl RetryDelayNegative,
     Some (Job.set_max_retries max_retries
             (Job.set_timeout_seconds timeout job))).
Proof.
  intros Hget Ht Hm Hr. unfold JobDomainService.update_job. rewrite Hget.
  unfold JobDomainService.update_fields. run_method.
  replace (timeout <=? 0) with false by (symmetry; apply Z.leb_gt; lia).
  simpl.
  replace (max_retries <? 0) with false by (symmetry; apply Z.ltb_ge; lia).
  simpl.
  replace (retry_delay <? 0) with true by (symmetry; apply Z.ltb_lt; lia).
  reflexivity.
Qed.

End UpdateFrame.

Lemma update_job_keeps_fixed_fields_witness :
  let repository := in_memory_repository [sample_job] in
  exists outcome job',
    @JobDomainService.update_job CronCalculator.croniter repository
      5000000 1 (Some "nightly-backup") (Some "invalid cron") (Some "nightly.sh")
      None (Some 0) None None
    = (outcome, Some job')
    /\ same_fixed_fields sample_job job'.
Proof.
  intro repository.
  apply (@update_job_keeps_fixed_fields CronCalculator.croniter repository
           5000000 1 sample_job).
  reflexivity.
Defined.

Lemma update_job_with_own_name_witness :
  let repository := in_memory_repository [sample_job] in
  @JobDomainService.update_job CronCalculator.croniter repository
    5000000 1 (Some "daily-backup") None None None None None None
  = (@update repository (Job.set_updated_at 5000000 sample_job),
     Some (Job.set_updated_at 5000000 sample_job)).
Proof.
  intro repository.
  apply (@update_job_with_own_name CronCalculator.croniter repository
           5000000 1 sample_job).
  reflexivity.
Defined.

Lemma update_job_name_taken_witness :
  let repository := in_memory_repository [sample_job; second_job] in
  match @get_by_name repository "weekly-report" with
  | inl e =>
      @JobDomainService.update_job CronCalculator.croniter repository
        5000000 1 (Some "weekly-report") (Some "*/5 * * * *") None None
        None None None
      = (inl e, Some sample_job)
  | inr (Some _) =>
      @JobDomainService.update_job CronCalculator.croniter repository
        5000000 1 (Some "weekly-report") (Some "*/5 * * * *") None None
        None None None
      = (inl (JobNameExists "weekly-report"), Some sample_job)
  | inr None => True
  end.
Proof.
  intro repository.
  apply (@update_job_name_taken CronCalculator.croniter repository
           5000000 1 sample_job "weekly-report").
  - reflexivity.
  - discriminate.
Defined.

Lemma update_job_timeout_rejected_witness :
  let repository := in_memory_repository [sample_job] in
  @JobDomainService.update_job CronCalculator.croniter repository
    5000000 1 None None (Some "nightly.sh") None (Some 0) (Some 5) None
  = (inl TimeoutNotPositive, Some (Job.set_command "nightly.sh" sample_job)).
Proof.
  intro repository.
  apply (@update_job_timeout_rejected CronCalculator.croniter repository
           5000000 1 sample_job (Some "nightly.sh") None 0 (Some 5) None).
  - reflexivity.
  - lia.
Defined.

Lemma update_job_retry_delay_rejected_witness :
  let repository := in_memory_repository [sample_job] in
  @JobDomainService.update_job CronCalculator.croniter repository
    5000000 1 None None None None (Some 10) (Some 1) (Some (-1))
  = (inl RetryDelayNegative,
     Some (Job.set_max_retries 1 (Job.set_timeout_seconds 10 sample_job))).
Proof.
  intro repository.
  apply (@update_job_retry_delay_rejected CronCalculator.croniter repository
           5000000 1 sample_job 10 1 (-1)); try reflexivity; lia.
Defined.

(** ** Scheduling service: creation *)

Section CreateJob.
Context {cron : Croniter}.
Context {job_repository : JobRepositoryInterface}.
Context {job_creation : JobRepositoryCreate}.

(** X26: [create_job] raises without reaching the repository's [create]
    when the name is taken, and when the name is free but croniter rejects
    the expression; the outcome is the same whatever [create] would do. *)
Theorem create_job_rejections (now : datetime) (uuid : UUID)
    (name cron_expression command description : string)
    (timeout_seconds max_retries retry_delay_seconds : Z)
    (environment_variables : option (list (string * string)))
    (tags : option (list string)) :
  ((exists existing, get_by_name name = inr (Some existing)) ->
   JobDomainService.create_job now uuid name cron_expression command
     description timeout_seconds max_retries retry_delay_seconds
     environment_variables tags
   = inl (JobNameExists name))
  /\ (get_by_name name = inr None ->
      croniter_accepts cron_expression = false ->
      JobDomainService.create_job now uuid name cron_expression command
        description timeout_seconds max_retries retry_delay_seconds
        environment_variables tags
      = inl (InvalidCronExpression cron_expression)).
Proof.
  unfold JobDomainService.create_job. split.
  - intros (existing & ->). reflexivity.
  - intros -> Hbad.
    unfold Job.init, Job.post_init, Job.validate_cron_expression.
    run_method. rewrite Hbad. reflexivity.
Qed.

(** X27: with a free name and an expression croniter accepts,
    [create_job] hands the repository an [ACTIVE] job without an id, whose
    [next_run] is croniter's next run after the time of the call, with the
    timeout, the maximum of retries and the retry delay exactly as given:
    unlike [update_job] it checks none of their ranges. *)
Theorem create_job_stores_active_job (now next : datetime) (uuid : UUID)
    (name cron_expression command description : string)
    (timeout_seconds max_retries retry_delay_seconds : Z)
    (environment_variables : option (list (string * string)))
    (tags : option (list string)) :
  get_by_name name = inr None ->
  croniter_accepts cron_expression = true ->
  croniter_get_next cron_expression now = Some next ->
  exists job,
    JobDomainService.create_job now uuid name cron_expression command
      description timeout_seconds max_retries retry_delay_seconds
      environment_variables tags
    = create job
    /\ job.(Job.status) = ACTIVE
    /\ job.(Job.id) = None
    /\ job.(Job.next_run) = Some next
    /\ job.(Job.last_run) = None
    /\ job.(Job.name) = name
    /\ job.(Job.timeout_seconds) = timeout_seconds
    /\ job.(Job.max_retries) = max_retries
    /\ job.(Job.retry_delay_seconds) = retry_delay_seconds
    /\ Job.is_due now job = (next <=? now).
Proof.
  intros Hfree Haccepts Hnext.
  unfold JobDomainService.create_job. rewrite Hfree.
  unfold Job.init, Job.post_init, Job.validate_cron_expression,
    Job.calculate_next_run.
  run_method. rewrite Haccepts. simpl. rewrite Haccepts, Hnext. simpl.
  eexists. split; [reflexivity|]. repeat split.
Qed.

End CreateJob.

(** Scenario B of the specification: the name of a stored job is taken. *)
Lemma create_job_rejections_witness :
  @JobDomainService.create_job CronCalculator.croniter
    (in_memory_repository [sample_job]) assigning_repository
    5000000 1003 "daily-backup" "0 3 * * *" "backup.sh" "" 300 3 60 None None
  = inl (JobNameExists "daily-backup").
Proof.
  apply (proj1 (@create_job_rejections CronCalculator.croniter
                  (in_memory_repository [sample_job]) assigning_repository
                  5000000 1003 "daily-backup" "0 3 * * *" "backup.sh" ""
                  300 3 60 None None)).
  exists sample_job. reflexivity.
Defined.

Lemma create_job_stores_active_job_witness :
  exists job,
    @JobDomainService.create_job CronCalculator.croniter
      (in_memory_repository [sample_job]) assigning_repository
      5000000 1003 "hourly-sync" "0 * * * *" "sync.sh" "" (-5) 3 60 None None
    = @create assigning_repository job
    /\ job.(Job.status) = ACTIVE
    /\ job.(Job.id) = None
    /\ job.(Job.next_run) = Some 3600000000
    /\ job.(Job.last_run) = None
    /\ job.(Job.name) = "hourly-sync"
    /\ job.(Job.timeout_seconds) = -5
    /\ job.(Job.max_retries) = 3
    /\ job.(Job.retry_delay_seconds) = 60
    /\ Job.is_due 5000000 job = (3600000000 <=? 5000000).
Proof.
  apply (@create_job_stores_active_job CronCalculator.croniter
           (in_memory_repository [sample_job]) assigning_repository
           5000000 3600000000 1003 "hourly-sync" "0 * * * *" "sync.sh" ""
           (-5) 3 60 None None); reflexivity.
Defined.

(** ** Scheduling service: statistics, further properties *)

Lemma filter_length_permutation {A} (p : A -> bool) (xs ys : list A) :
  Permutation xs ys ->
  List.length (filter p xs) = List.length (filter p ys).
Proof.
  induction 1 as [| x xs ys _ IH | x y xs | xs ys zs _ IH1 _ IH2]; simpl.
  - reflexivity.
  - destruct (p x); simpl; congruence.
  - destruct (p x), (p y); reflexivity.
  - congruence.
Qed.

Section StatisticsEdges.
Context {job_repository : JobRepositoryInterface}.

(** X28: the statistics of a job without executions are all zero, no
    division takes place; and for an id without a job the call raises the
    not-found error without asking for the history. *)
Theorem get_job_statistics_edges
    (history : JobExecutionRepositoryInterface) (job_id : Z) :
  (get_by_id job_id = inr None ->
   @JobDomainService.get_job_statistics job_repository history job_id
   = inl (JobNotFound job_id))
  /\ (forall job,
        get_by_id job_id = inr (Some job) ->
        @get_by_job_id history job_id = inr [] ->
        @JobDomainService.get_job_statistics job_repository history job_id
        = inr {| job_name := job.(Job.name);
                 job_status := job.(Job.status);
                 total_executions := 0;
                 successful_executions := 0;
                 failed_executions := 0;
                 success_rate_percent := 0%float;
                 average_duration_seconds := 0%float;
                 last_execution := job.(Job.last_run);
                 next_execution := job.(Job.next_run) |}).
Proof.
  unfold JobDomainService.get_job_statistics. split.
  - intros ->. reflexivity.
  - intros job -> ->. reflexivity.
Qed.

(** X29: the counts and the success rate do not depend on the order in
    which the repository returns the executions. *)
Theorem statistics_ignore_order (first second : JobExecutionRepositoryInterface)
    (job_id : Z) (job : Job.t) (xs ys : list JobExecution.t) :
  get_by_id job_id = inr (Some job) ->
  @get_by_job_id first job_id = inr xs ->
  @get_by_job_id second job_id = inr ys ->
  Permutation xs ys ->
  exists s1 s2,
    @JobDomainService.get_job_statistics job_repository first job_id = inr s1
    /\ @JobDomainService.get_job_statistics job_repository second job_id
       = inr s2
    /\ s1.(total_executions) = s2.(total_executions)
    /\ s1.(successful_executions) = s2.(successful_executions)
    /\ s1.(failed_executions) = s2.(failed_executions)
    /\ s1.(success_rate_percent) = s2.(success_rate_percent).
Proof.
  intros Hjob Hxs Hys Hperm.
  unfold JobDomainService.get_job_statistics. rewrite Hjob, Hxs, Hys.
  do 2 eexists. split; [reflexivity|]. split; [reflexivity|].
  cbn [total_executions successful_executions failed_executions
       success_rate_percent].
  rewrite !int_sum_ones.
  rewrite (Permutation_length Hperm).
  rewrite (filter_length_permutation
             (fun e => ExecutionStatus_eqb e.(JobExecution.status) SUCCESS)
             xs ys Hperm).
  rewrite (filter_length_permutation
             (fun e => ExecutionStatus_eqb e.(JobExecution.status) FAILED)
             xs ys Hperm).
  repeat split.
Qed.

(** X30: a failure of the repository's due-job query is passed on
    unchanged, and when every candidate it returns is [ACTIVE] with a
    [next_run] that has passed, the service returns the candidates as they
    are. *)
Theorem due_jobs_of_exact_repository (now : datetime) :
  (forall e, get_due_jobs now = inl e ->
             JobDomainService.get_jobs_due_for_execution now = inl e)
  /\ (forall candidates,
        get_due_jobs now = inr candidates ->
        (forall job, In job candidates ->
                     job.(Job.status) = ACTIVE
                     /\ exists next, job.(Job.next_run) = Some next
                                     /\ next <= now) ->
        JobDomainService.get_jobs_due_for_execution now = inr candidates).
Proof.
  unfold JobDomainService.get_jobs_due_for_execution. split.
  - intros e ->. reflexivity.
  - intros candidates -> Hall.
    rewrite (append_loop_is_filter
               (fun job =>
                  JobDomainService._is_job_eligible_for_execution job now)).
    simpl. f_equal.
    induction candidates as [|job rest IH]; simpl; [reflexivity|].
    destruct (Hall job (or_introl eq_refl)) as (Hactive & next & Hnext & Hle).
    unfold JobDomainService._is_job_eligible_for_execution at 1.
    unfold Job.is_due. rewrite Hactive, Hnext. simpl.
    apply Z.leb_le in Hle. rewrite Hle. simpl.
    f_equal. apply IH. intros other Hin. apply Hall. now right.
Qed.

End StatisticsEdges.

Lemma get_job_statistics_edges_witness :
  @JobDomainService.get_job_statistics (in_memory_repository [sample_job])
    (in_memory_executions []) 2
  = inl (JobNotFound 2).
Proof.
  apply (proj1 (@get_job_statistics_edges (in_memory_repository [sample_job])
                  (in_memory_executions []) 2)).
  reflexivity.
Defined.

Lemma statistics_ignore_order_witness :
  let succeeded :=
    JobExecution.complete_success 0 "ok" 120000000
      (JobExecution.start 60000000 sample_execution) in
  let failed :=
    JobExecution.complete_failure (Some 1) "boom" "exit 1" 120000000
      (JobExecution.start 60000000 sample_execution) in
  let jobs := in_memory_repository [sample_job] in
  exists s1 s2,
    @JobDomainService.get_job_statistics jobs
      (in_memory_executions [succeeded; failed]) 1 = inr s1
    /\ @JobDomainService.get_job_statistics jobs
         (in_memory_executions [failed; succeeded]) 1 = inr s2
    /\ s1.(total_executions) = s2.(total_executions)
    /\ s1.(successful_executions) = s2.(successful_executions)
    /\ s1.(failed_executions) = s2.(failed_executions)
    /\ s1.(success_rate_percent) = s2.(success_rate_percent).
Proof.
  intros succeeded failed jobs.
  apply (@statistics_ignore_order jobs
           (in_memory_executions [succeeded; failed])
           (in_memory_executions [failed; succeeded]) 1 sample_job
           [succeeded; failed] [failed; succeeded]);
    try reflexivity.
  apply perm_swap.
Defined.

Lemma due_jobs_of_exact_repository_witness :
  @JobDomainService.get_jobs_due_for_execution
    (in_memory_repository [second_job; sample_job]) 60000000
  = inr [second_job; sample_job].
Proof.
  apply (proj2 (@due_jobs_of_exact_repository
                  (in_memory_repository [second_job; sample_job]) 60000000)
           [second_job; sample_job] eq_refl).
  intros job [<- | [<- | []]]; (split; [reflexivity|]);
    exists 60000000; (split; [reflexivity | lia]).
Defined.
